(** * Gmail storage manager: filter engine and batch client

    A shallow embedding of [config.py], [gmail_client.py] and
    [email_filter.py] of the gmail-cleaner project, and the properties of the
    filter pipeline, the categorizer, the query builder and the batch
    operations of the client.

    Conventions of the embedding:
    - Python [int] is [Z], [float] is a binary64 primitive float,
      [Optional[T]] is [option T];
    - [str] is [string], the text in UTF-8; [str.lower] is a function of the
      runtime, known on ASCII text, where it maps [A-Z] to [a-z];
    - a [datetime] is its wall-clock reading in microseconds since
      1970-01-01T00:00 together with its optional fixed UTC offset;
      arithmetic that leaves the years 1..9999 raises [OverflowError];
    - a function that can raise returns an [outcome]; the Gmail service and
      the exceptions of the client are threaded through an error monad over
      the history of the API requests;
    - logging is not modelled. *)

From Stdlib Require Import ZArith String Ascii List Bool Lia Floats DecimalString.
Import ListNotations.
Set Warnings "-inexact-float".
Open Scope string_scope.

(** ** Python values and built-ins used by the source *)

Module Py.

(** The exception classes the source raises, catches or lets through.
    [Exception] stands for any other subclass of Python's [Exception]
    (a transport error, a timeout, ...); each carries its [str()] text. *)
Inductive exn : Type :=
| HttpError (text : string)
| GmailAPIError (text : string)
| OverflowError (text : string)
| ValueError (text : string)
| TypeError (text : string)
| ZeroDivisionError (text : string)
| Exception (text : string).

Definition str_exn (e : exn) : string :=
  match e with
  | HttpError t | GmailAPIError t | OverflowError t | ValueError t
  | TypeError t | ZeroDivisionError t | Exception t => t
  end.

Inductive outcome (A : Type) : Type :=
| Returned (a : A)
| Raised (e : exn).
Arguments Returned {A} a.
Arguments Raised {A} e.

(** [str(n)] for an int. *)
Definition str_int (n : Z) : string := NilZero.string_of_int (Z.to_int n).

(** [c.lower()] on one ASCII character. *)
Definition lower_ascii (c : ascii) : ascii :=
  let n := nat_of_ascii c in
  if (65 <=? n)%nat && (n <=? 90)%nat then ascii_of_nat (n + 32) else c.

(** [s.lower()] for ASCII text [s]. *)
Fixpoint ascii_lower (s : string) : string :=
  match s with
  | EmptyString => EmptyString
  | String c s' => String (lower_ascii c) (ascii_lower s')
  end.

(** [s.isascii()]. *)
Fixpoint is_ascii (s : string) : bool :=
  match s with
  | EmptyString => true
  | String c s' => (nat_of_ascii c <? 128)%nat && is_ascii s'
  end.

(** [needle in hay] on strings: substring search. *)
Fixpoint contains (needle hay : string) : bool :=
  prefix needle hay ||
  match hay with
  | EmptyString => false
  | String _ hay' => contains needle hay'
  end.

(** [x in l] on a list of strings. *)
Definition mem (x : string) (l : list string) : bool :=
  existsb (String.eqb x) l.

(** Truthiness of an int, a float, an optional value and a list. *)
Definition truthy_int (n : Z) : bool := negb (n =? 0)%Z.
Definition truthy_float (x : float) : bool := negb (x =? 0)%float.
Definition truthy_opt {A} (truthy : A -> bool) (o : option A) : bool :=
  match o with Some a => truthy a | None => false end.
Definition truthy_list {A} (l : list A) : bool :=
  match l with [] => false | _ :: _ => true end.

(** [int(x)] for a float: truncation towards zero; infinities and NaN
    raise. *)
Definition int_of_float (x : float) : outcome Z :=
  match Prim2SF x with
  | S754_zero _ => Returned 0%Z
  | S754_infinity _ =>
      Raised (OverflowError "cannot convert float infinity to integer")
  | S754_nan => Raised (ValueError "cannot convert float NaN to integer")
  | S754_finite s m e =>
      let mag := if (0 <=? e)%Z then Z.shiftl (Z.pos m) e
                 else Z.shiftr (Z.pos m) (- e) in
      Returned (if s then (- mag)%Z else mag)
  end.

(** [min(x, y)] of two floats: the first minimal argument. *)
Definition min_float (x y : float) : float :=
  if (y <? x)%float then y else x.

(** Regular expressions of the pattern tables: literal characters, each
    optionally followed by [?]. Matching is case-insensitive, as the
    patterns are compiled with [re.IGNORECASE]. *)
Inductive atom : Type :=
| Lit (c : ascii)
| Opt (c : ascii).

Definition regex := list atom.

Fixpoint re_compile (pattern : string) : regex :=
  match pattern with
  | EmptyString => []
  | String c rest =>
      match rest with
      | String "?" rest' => Opt c :: re_compile rest'
      | _ => Lit c :: re_compile rest
      end
  end.

Definition eqb_nocase (c d : ascii) : bool :=
  Ascii.eqb (lower_ascii c) (lower_ascii d).

(** The letters outside ASCII that [re.IGNORECASE] takes for an ASCII
    letter, in UTF-8: U+0130 and U+0131 for i, U+017F for s and U+212A for
    k. *)
Definition other_spellings (c : ascii) : list string :=
  match lower_ascii c with
  | "i"%char => [String "196" (String "176" ""); String "196" (String "177" "")]
  | "s"%char => [String "197" (String "191" "")]
  | "k"%char => [String "226" (String "132" (String "170" ""))]
  | _ => []
  end.

(** [s] without its prefix [p], if it starts with [p]. *)
Fixpoint strip_prefix (p s : string) : option string :=
  match p with
  | EmptyString => Some s
  | String a p' =>
      match s with
      | String b s' => if Ascii.eqb a b then strip_prefix p' s' else None
      | EmptyString => None
      end
  end.

(** The rest of [s] after its first character, if that matches the pattern
    character [c]. *)
Definition match_char (c : ascii) (s : string) : option string :=
  match s with
  | EmptyString => None
  | String d s' =>
      if eqb_nocase c d then Some s'
      else
        fold_right
          (fun spelling otherwise =>
             match strip_prefix spelling s with
             | Some rest => Some rest
             | None => otherwise
             end)
          None (other_spellings c)
  end.

Fixpoint re_match_here (r : regex) (s : string) : bool :=
  match r with
  | [] => true
  | Lit c :: r' =>
      match match_char c s with
      | Some s' => re_match_here r' s'
      | None => false
      end
  | Opt c :: r' =>
      match match_char c s with
      | Some s' => re_match_here r' s'
      | None => false
      end || re_match_here r' s
  end.

(** [pattern.search(s)], as a truth value. *)
Fixpoint re_search (r : regex) (s : string) : bool :=
  re_match_here r s ||
  match s with
  | EmptyString => false
  | String _ s' => re_search r s'
  end.

(** Values stored in the diagnostic dictionaries. *)
Inductive value : Type :=
| VBool (b : bool)
| VInt (n : Z)
| VFloat (x : float)
| VStr (s : string)
| VList (l : list string).

(** [datetime]: the wall-clock reading in microseconds and the UTC offset
    of its [tzinfo], [None] for a naive value. *)
Record datetime : Type := mkDatetime {
  wall : Z;
  tzinfo : option Z
}.

(** The system clock read by [datetime.now]: the current UTC time and the
    offset of the local zone, in microseconds. *)
Record clock : Type := mkClock {
  utc_now : Z;
  local_offset : Z
}.

Definition microseconds_per_day : Z := 86400000000.

(** [datetime.min] and [datetime.max]: 0001-01-01T00:00:00 and
    9999-12-31T23:59:59.999999. *)
Definition min_wall : Z := -62135596800000000.
Definition max_wall : Z := 253402300799999999.

(** [datetime.now(tz)] and [datetime.now()]. *)
Definition datetime_now (c : clock) (tz : option Z) : datetime :=
  match tz with
  | Some off => mkDatetime (utc_now c + off) (Some off)
  | None => mkDatetime (utc_now c + local_offset c) None
  end.

(** [timedelta(days=n)], in microseconds: the constructor refuses more
    than 999999999 days. *)
Definition timedelta_days (n : Z) : outcome Z :=
  if (Z.abs n <=? 999999999)%Z then Returned (n * microseconds_per_day)%Z
  else Raised (OverflowError
                 ("days=" ++ str_int n ++ "; must have magnitude <= 999999999")).

(** [d - delta]: the subtraction is done on the wall-clock reading and
    keeps the [tzinfo]; a result outside [datetime.min .. datetime.max]
    raises. *)
Definition datetime_sub (d : datetime) (delta : Z) : outcome datetime :=
  let w := (wall d - delta)%Z in
  if (min_wall <=? w)%Z && (w <=? max_wall)%Z
  then Returned (mkDatetime w (tzinfo d))
  else Raised (OverflowError "date value out of range").

(** [d - timedelta(days=n)]. *)
Definition minus_days (d : datetime) (n : Z) : outcome datetime :=
  match timedelta_days n with
  | Returned delta => datetime_sub d delta
  | Raised e => Raised e
  end.

(** The point in time two values of the same awareness are compared by:
    the UTC instant of an aware value, the wall-clock reading of a naive
    one. The source only compares values of the same awareness. *)
Definition instant (d : datetime) : Z :=
  match tzinfo d with
  | Some off => wall d - off
  | None => wall d
  end.

Definition dt_gt (a b : datetime) : bool := (instant b <? instant a)%Z.
Definition dt_lt (a b : datetime) : bool := (instant a <? instant b)%Z.

(** [(a - b).days]: timedelta normalises by floor division. *)
Definition days_between (a b : datetime) : Z :=
  ((instant a - instant b) / microseconds_per_day)%Z.

(** Library functions of the Python runtime that the source calls and
    whose output is not computed here: [email.utils.parseaddr], the [:.2f]
    format of a float, [str()] of a float, and [str.lower], which follows
    the case mappings of Unicode and is [ascii_lower] on ASCII text. *)
Record runtime : Type := mkRuntime {
  parseaddr : string -> string * string;
  format_2f : float -> string;
  str_float : float -> string;
  str_lower : string -> string;
  str_lower_ascii : forall s, is_ascii s = true -> str_lower s = ascii_lower s
}.

End Py.

Import Py.

(** ** config.py *)

Module Config.

Record FilterConfig : Type := mkFilterConfig {
  older_than_days : Z;
  newer_than_days : option Z;
  min_size_mb : option float;
  max_size_mb : option float;
  large_attachment_mb : float;
  exclude_senders : list string;
  include_senders : list string;
  newsletter_domains : list string;
  exclude_labels : list string;
  include_labels : list string;
  exclude_folders : list string;
  custom_queries : list string
}.

(** The constructor with its defaults, and [__post_init__] replacing each
    list left at [None]. *)
Definition new_FilterConfig
  (older_than : option Z) (newer_than : option Z)
  (min_size max_size : option float) (large_attachment : option float)
  (excl_senders incl_senders domains excl_labels incl_labels excl_folders
   queries : option (list string)) : FilterConfig :=
  let or_default (o : option (list string)) d :=
    match o with Some l => l | None => d end in
  {| older_than_days := match older_than with Some n => n | None => 365 end;
     newer_than_days := newer_than;
     min_size_mb := min_size;
     max_size_mb := max_size;
     large_attachment_mb :=
       match large_attachment with Some x => x | None => 10.0%float end;
     exclude_senders := or_default excl_senders [];
     include_senders := or_default incl_senders [];
     newsletter_domains :=
       or_default domains
         ["noreply@"; "no-reply@"; "newsletter@"; "marketing@";
          "notifications@"; "updates@"; "support@"];
     exclude_labels := or_default excl_labels ["IMPORTANT"; "STARRED"];
     include_labels := or_default incl_labels [];
     exclude_folders := or_default excl_folders ["SENT"; "DRAFTS"];
     custom_queries := or_default queries [] |}.

(** [FilterConfig()]. *)
Definition default_FilterConfig : FilterConfig :=
  new_FilterConfig None None None None None
                   None None None None None None None.

Record SafetyConfig : Type := mkSafetyConfig {
  dry_run_mode : bool;
  require_confirmation : bool;
  backup_verification_level : string;
  soft_delete : bool;
  batch_size : Z;
  rate_limit_delay : float;
  max_retries : Z;
  enable_rollback : bool
}.

(** [SafetyConfig()]. *)
Definition default_SafetyConfig : SafetyConfig :=
  {| dry_run_mode := true;
     require_confirmation := true;
     backup_verification_level := "full";
     soft_delete := true;
     batch_size := 50;
     rate_limit_delay := 0.1%float;
     max_retries := 3;
     enable_rollback := true |}.

(** The parts of [Config] the client and the filter read. *)
Record Config : Type := mkConfig {
  filter : FilterConfig;
  safety : SafetyConfig
}.

Definition default_Config : Config :=
  {| filter := default_FilterConfig; safety := default_SafetyConfig |}.

End Config.

Import Config.

(** ** gmail_client.py *)

Module GmailClient.

(** The requests [self.service.users().messages()] is asked to execute. *)
Inductive request : Type :=
| MessagesGet (id : string) (format : string)
| MessagesDelete (id : string)
| MessagesTrash (id : string).

(** Computations of the client: they read and extend the history of the
    requests executed so far, and return or raise. *)
Definition M (A : Type) : Type := list request -> outcome A * list request.

Definition ret {A} (a : A) : M A := fun h => (Returned a, h).

Definition raise {A} (e : exn) : M A := fun h => (Raised e, h).

Definition bind {A B} (m : M A) (k : A -> M B) : M B :=
  fun h =>
    match m h with
    | (Returned a, h') => k a h'
    | (Raised e, h') => (Raised e, h')
    end.

(** [try: body except ...]: the handler answers [None] for an exception no
    [except] clause matches, which then propagates. *)
Definition try_except {A} (body : M A) (handler : exn -> option (M A)) : M A :=
  fun h =>
    match body h with
    | (Returned a, h') => (Returned a, h')
    | (Raised e, h') =>
        match handler e with
        | Some k => k h'
        | None => (Raised e, h')
        end
    end.

Notation "x <- m ;; k" := (bind m (fun x => k))
  (at level 100, m at next level, right associativity).

(** [for x in l: s = body(x, s)]. *)
Fixpoint for_each {A S} (l : list A) (body : A -> S -> M S) (s : S) : M S :=
  match l with
  | [] => ret s
  | x :: l' => s' <- body x s ;; for_each l' body s'
  end.

(** [range(0, stop, step)] and the slice [l[i:j]]. *)
Definition range_step (stop step : nat) : list nat :=
  map (fun k => k * step) (seq 0 ((stop + step - 1) / step)).

Definition slice {A} (l : list A) (i j : nat) : list A :=
  firstn (j - i) (skipn i l).

Section Client.

(** The message dictionaries the API returns. *)
Context {message : Type}.

(** The Gmail service: the result of [execute()] on a request, which may
    depend on the requests executed before it. *)
Definition service_t : Type := list request -> request -> outcome message.

Record GmailClient : Type := mkGmailClient {
  config : Config;
  service : service_t
}.

Variable self : GmailClient.

(** [request.execute()]. *)
Definition execute (rq : request) : M message :=
  fun h => (service self h rq, (h ++ [rq])%list).

Definition get_message (message_id : string) (format : string) : M message :=
  try_except
    (message <- execute (MessagesGet message_id format) ;;
     ret message)
    (fun e =>
       match e with
       | HttpError t =>
           Some (raise (GmailAPIError
                   ("Failed to get message " ++ message_id ++ ": " ++ t)))
       | _ => None
       end).

(** The body of the inner loop of [get_messages_batch]: fetch one message
    and append it to [batch_messages]. *)
Definition fetch_into (format : string) (msg_id : string)
  (batch_messages : list message) : M (list message) :=
  message <- get_message msg_id format ;;
  ret (batch_messages ++ [message])%list.

(** The body of its outer loop, for the batch that starts at index [i]. *)
Definition fetch_batch (message_ids : list string) (format : string)
  (batch_size : nat) (i : nat) (messages : list message) : M (list message) :=
  let batch_ids := slice message_ids i (i + batch_size) in
  try_except
    (batch_messages <- for_each batch_ids (fetch_into format) [] ;;
     ret (messages ++ batch_messages)%list)
    (fun e =>
       Some (raise (GmailAPIError
               ("Batch message retrieval failed: " ++ str_exn e)))).

Definition get_messages_batch (message_ids : list string) (format : string)
  : M (list message) :=
  if negb (truthy_list message_ids) then ret []
  else
    let batch_size := 100%nat in
    messages <-
      for_each (range_step (length message_ids) batch_size)
               (fetch_batch message_ids format batch_size) [] ;;
    ret messages.

Definition delete_message (message_id : string) (permanent : bool) : M bool :=
  try_except
    (if permanent
     then _ <- execute (MessagesDelete message_id) ;; ret true
     else _ <- execute (MessagesTrash message_id) ;; ret true)
    (fun e =>
       match e with
       | HttpError t =>
           let error_msg :=
             "Failed to delete message " ++ message_id ++ ": " ++ t in
           Some (raise (GmailAPIError error_msg))
       | _ => None
       end).

(** The dictionary [{'success': ..., 'failed': ...}]. *)
Record batch_result : Type := mkBatchResult {
  success : list string;
  failed : list string
}.

(** The body of the loop of [delete_messages_batch] on the two lists
    [success_ids] and [failed_ids]. *)
Definition delete_into (permanent : bool) (message_id : string)
  (ids : list string * list string) : M (list string * list string) :=
  let '(success_ids, failed_ids) := ids in
  try_except
    (_ <- delete_message message_id permanent ;;
     ret ((success_ids ++ [message_id])%list, failed_ids))
    (fun e =>
       match e with
       | GmailAPIError _ =>
           Some (ret (success_ids, (failed_ids ++ [message_id])%list))
       | _ => None
       end).

Definition delete_messages_batch (message_ids : list string)
  (permanent : bool) : M batch_result :=
  if negb (truthy_list message_ids)
  then ret {| success := []; failed := [] |}
  else
    ids <- for_each message_ids (delete_into permanent) ([], []) ;;
    ret {| success := fst ids; failed := snd ids |}.

End Client.

Arguments GmailClient message : clear implicits.
Arguments service_t message : clear implicits.

(** The mutating request [delete_message] issues for an id. *)
Definition mutation (permanent : bool) (id : string) : request :=
  if permanent then MessagesDelete id else MessagesTrash id.

(** A reply of the service the client handles as a per-message result: the
    request is executed, or the API answers it with an [HttpError]. *)
Definition http_reply {message} (o : outcome message) : Prop :=
  match o with
  | Returned _ | Raised (HttpError _) => True
  | Raised _ => False
  end.

Definition returned {A} (o : outcome A) : bool :=
  match o with Returned _ => true | Raised _ => false end.

Definition succeeded {message} (r : string * outcome message) : bool :=
  returned (snd r).

(** The reply each id of a list receives when one mutating request per id
    is executed in order, starting from history [h]. *)
Fixpoint mutation_replies {message} (sv : service_t message)
  (permanent : bool) (h : list request) (ids : list string)
  : list (string * outcome message) :=
  match ids with
  | [] => []
  | id :: rest =>
      (id, sv h (mutation permanent id))
      :: mutation_replies sv permanent (h ++ [mutation permanent id])%list rest
  end.

(** The requests on one id in a history. *)
Definition request_id (rq : request) : string :=
  match rq with
  | MessagesGet id _ | MessagesDelete id | MessagesTrash id => id
  end.

Definition calls_on (id : string) (h : list request) : nat :=
  length (List.filter (fun rq => String.eqb (request_id rq) id) h).

(** Services used in the examples: one that executes every request, one
    on which a given id always fails with the given exception, and one that
    throttles the first request on each id only. *)
Definition always_ok : service_t string :=
  fun _ rq => Returned (request_id rq).

Definition failing_on (bad : string) (e : exn) : service_t string :=
  fun _ rq =>
    if String.eqb (request_id rq) bad then Raised e
    else Returned (request_id rq).

Definition throttled_once : service_t string :=
  fun h rq =>
    if (calls_on (request_id rq) h =? 0)%nat
    then Raised (HttpError "429 rateLimitExceeded")
    else Returned (request_id rq).

(** What the [except Exception] clause of [get_messages_batch] makes of the
    run of a batch: an exception is raised again as a [GmailAPIError]. *)
Definition reraised {A} (r : outcome A * list request)
  : outcome A * list request :=
  match r with
  | (Raised e, h) =>
      (Raised (GmailAPIError
                 ("Batch message retrieval failed: " ++ str_exn e)), h)
  | (Returned a, h) => (Returned a, h)
  end.

(** A client with the default configuration ([dry_run_mode] on,
    [max_retries = 3]) on a given service. *)
Definition default_client (sv : service_t string) : GmailClient string :=
  mkGmailClient default_Config sv.

End GmailClient.

(** ** email_filter.py *)

Module EmailFilter.

Record FilterResult : Type := mkFilterResult {
  should_process : bool;
  reason : string;
  confidence : float;
  filter_type : string;
  metadata : list (string * value)
}.

(** The metadata dictionary of one email, by the keys the filter reads:
    ['label_ids'], ['from'], ['subject'], ['date'] and ['size_estimate'].
    [None] is a key that is absent (for ['date'] also one mapped to
    [None]). *)
Record EmailMetadata : Type := mkEmailMetadata {
  md_label_ids : option (list string);
  md_from : option string;
  md_subject : option string;
  md_date : option datetime;
  md_size_estimate : option Z
}.

(** [d.get(key, default)]. *)
Definition get {A} (entry : option A) (default : A) : A :=
  match entry with Some a => a | None => default end.

(** [float(n)] of an int, rounded to nearest. *)
Definition float_of_int (n : Z) : float :=
  SF2Prim (binary_normalize prec emax n 0 false).

(** The least magnitude that is rounded to a float that is not finite:
    [2^1024 - 2^970], halfway between the largest float and [2^1024]. *)
Definition float_overflow_bound : Z := 2 ^ 1024 - 2 ^ 970.

(** The quotient of two ints, the second not 0, rounded once to the nearest
    float, ties to even: the quotient is taken with at least 64 significant
    bits and one more bit that records a remainder, and rounded from
    there. *)
Definition round_quotient (a b : Z) : float :=
  let negative := xorb (a <? 0)%Z (b <? 0)%Z in
  let n := Z.abs a in
  let d := Z.abs b in
  let shift := Z.max 0 (Z.log2 d - Z.log2 n + 64) in
  let scaled := Z.shiftl n shift in
  let sticky := if (scaled mod d =? 0)%Z then 0%Z else 1%Z in
  let m := (2 * (scaled / d) + sticky)%Z in
  SF2Prim (binary_normalize prec emax (if negative then (- m)%Z else m)
                            (- shift - 1) negative).

(** The true division [a / b] of two ints: the correctly rounded quotient;
    it raises for [b = 0] and when the rounded quotient is too large for a
    float. *)
Definition int_truediv (a b : Z) : outcome float :=
  if (b =? 0)%Z then Raised (ZeroDivisionError "division by zero")
  else if (float_overflow_bound * Z.abs b <=? Z.abs a)%Z then
    Raised (OverflowError "integer division result too large for a float")
  else Returned (round_quotient a b).

(** A number that is an int on one path of the source and a float on
    another. [float_of_number] is its value as a float, by which it is
    compared with a float and formatted with [:.2f]; this is exact for an
    int up to [2^53], and the source has the int [0] only. *)
Inductive number : Type :=
| NInt (n : Z)
| NFloat (x : float).

Definition float_of_number (a : number) : float :=
  match a with NInt n => float_of_int n | NFloat x => x end.

Definition value_of_number (a : number) : value :=
  match a with NInt n => VInt n | NFloat x => VFloat x end.

(** [sum(xs)] of floats, added from the left starting at 0 (up to two
    terms the compensated summation of Python 3.12 gives the same
    value). *)
Definition sum_float (xs : list float) : float :=
  fold_left PrimFloat.add xs 0%float.

Record EmailFilter : Type := mkEmailFilter {
  config : FilterConfig;
  newsletter_patterns : list regex;
  automated_patterns : list regex
}.

(** [EmailFilter(config)]: [__init__] with [_compile_patterns]. *)
Definition new_EmailFilter (config : FilterConfig) : EmailFilter :=
  {| config := config;
     newsletter_patterns :=
       map re_compile
         ["unsubscribe"; "newsletter"; "marketing"; "promotional?"; "offer";
          "deal"; "sale"; "discount"; "click here"; "limited time"];
     automated_patterns :=
       map re_compile
         ["noreply"; "no-reply"; "donotreply"; "automated"; "notification";
          "alert"; "system"] |}.

Section Methods.

Variable rt : runtime.
Variable now_clock : clock.
Variable self : EmailFilter.

Definition _check_exclusions (metadata : EmailMetadata)
  : option FilterResult :=
  let label_ids := get (md_label_ids metadata) [] in
  match find (fun exclude_label => mem exclude_label label_ids)
             (exclude_labels (config self)) with
  | Some exclude_label =>
      Some {| should_process := false;
              reason := "Has excluded label: " ++ exclude_label;
              confidence := 1.0;
              filter_type := "exclusion";
              metadata := [("excluded_label", VStr exclude_label)] |}
  | None =>
  match find (fun exclude_folder => mem exclude_folder label_ids)
             (exclude_folders (config self)) with
  | Some exclude_folder =>
      Some {| should_process := false;
              reason := "In excluded folder: " ++ exclude_folder;
              confidence := 1.0;
              filter_type := "exclusion";
              metadata := [("excluded_folder", VStr exclude_folder)] |}
  | None =>
  let sender := str_lower rt (get (md_from metadata) "") in
  match find (fun exclude_sender =>
                contains (str_lower rt exclude_sender) sender)
             (exclude_senders (config self)) with
  | Some exclude_sender =>
      Some {| should_process := false;
              reason := "From excluded sender: " ++ exclude_sender;
              confidence := 1.0;
              filter_type := "exclusion";
              metadata := [("excluded_sender", VStr exclude_sender)] |}
  | None => None
  end end end.

Definition _check_time_filters (metadata : EmailMetadata)
  : outcome (option FilterResult) :=
  match md_date metadata with
  | None =>
      Returned
        (Some {| should_process := false;
                 reason := "Unable to parse email date";
                 confidence := 0.5;
                 filter_type := "time";
                 metadata := [("date_parse_error", VBool true)] |})
  | Some email_date =>
      let now := datetime_now now_clock (tzinfo email_date) in
      let older_than :=
        if truthy_int (older_than_days (config self)) then
          match minus_days now (older_than_days (config self)) with
          | Raised e => Raised e
          | Returned cutoff_date =>
              Returned
                (if dt_gt email_date cutoff_date then
                   Some {| should_process := false;
                           reason := "Email too recent (newer than "
                                     ++ str_int (older_than_days (config self))
                                     ++ " days)";
                           confidence := 1.0;
                           filter_type := "time";
                           metadata :=
                             [("email_age_days",
                               VInt (days_between now email_date));
                              ("cutoff_days",
                               VInt (older_than_days (config self)))] |}
                 else None)
          end
        else Returned None in
      match older_than with
      | Raised e => Raised e
      | Returned (Some result) => Returned (Some result)
      | Returned None =>
          match newer_than_days (config self) with
          | Some newer_than =>
              if truthy_int newer_than then
                match minus_days now newer_than with
                | Raised e => Raised e
                | Returned cutoff_date =>
                    Returned
                      (if dt_lt email_date cutoff_date then
                         Some {| should_process := false;
                                 reason := "Email too old (older than "
                                           ++ str_int newer_than ++ " days)";
                                 confidence := 1.0;
                                 filter_type := "time";
                                 metadata :=
                                   [("email_age_days",
                                     VInt (days_between now email_date));
                                    ("min_age_days", VInt newer_than)] |}
                       else None)
                end
              else Returned None
          | None => Returned None
          end
      end
  end.

(** [size_bytes / (1024 * 1024) if size_bytes else 0]. *)
Definition size_in_mb (size_bytes : Z) : outcome number :=
  if truthy_int size_bytes then
    match int_truediv size_bytes (1024 * 1024) with
    | Returned x => Returned (NFloat x)
    | Raised e => Raised e
    end
  else Returned (NInt 0).

Definition _check_size_filters (metadata : EmailMetadata)
  : outcome (option FilterResult) :=
  let size_bytes := get (md_size_estimate metadata) 0%Z in
  match size_in_mb size_bytes with
  | Raised e => Raised e
  | Returned size_mb =>
  let too_small :=
    match min_size_mb (config self) with
    | Some min_mb =>
        if truthy_float min_mb && (float_of_number size_mb <? min_mb)%float
        then
          Some {| should_process := false;
                  reason := "Email too small ("
                            ++ format_2f rt (float_of_number size_mb)
                            ++ " MB < " ++ str_float rt min_mb ++ " MB)";
                  confidence := 0.8;
                  filter_type := "size";
                  metadata := [("size_mb", value_of_number size_mb);
                               ("min_size_mb", VFloat min_mb)] |}
        else None
    | None => None
    end in
  match too_small with
  | Some result => Returned (Some result)
  | None =>
      match max_size_mb (config self) with
      | Some max_mb =>
          if truthy_float max_mb && (max_mb <? float_of_number size_mb)%float
          then
            Returned
              (Some {| should_process := false;
                       reason := "Email too large ("
                                 ++ format_2f rt (float_of_number size_mb)
                                 ++ " MB > " ++ str_float rt max_mb ++ " MB)";
                       confidence := 0.8;
                       filter_type := "size";
                       metadata := [("size_mb", value_of_number size_mb);
                                    ("max_size_mb", VFloat max_mb)] |})
          else Returned None
      | None => Returned None
      end
  end
  end.

Definition _check_sender_filters (metadata : EmailMetadata)
  : option FilterResult :=
  let sender := str_lower rt (get (md_from metadata) "") in
  let sender_email := str_lower rt (snd (parseaddr rt sender)) in
  if truthy_list (include_senders (config self)) then
    let included :=
      existsb (fun include_sender =>
                 contains (str_lower rt include_sender) sender)
              (include_senders (config self)) in
    if negb included then
      Some {| should_process := false;
              reason := "Sender not in whitelist";
              confidence := 0.9;
              filter_type := "sender";
              metadata := [("sender", VStr sender_email);
                           ("whitelist_only", VBool true)] |}
    else None
  else None.

Definition _check_content_filters (metadata : EmailMetadata)
  : option FilterResult :=
  if truthy_list (include_labels (config self)) then
    let label_ids := get (md_label_ids metadata) [] in
    let has_required_label :=
      existsb (fun label => mem label label_ids)
              (include_labels (config self)) in
    if negb has_required_label then
      Some {| should_process := false;
              reason := "Missing required labels";
              confidence := 0.8;
              filter_type := "content";
              metadata :=
                [("required_labels", VList (include_labels (config self)));
                 ("email_labels", VList label_ids)] |}
    else None
  else None.

Definition _check_custom_queries (metadata : EmailMetadata)
  : option FilterResult :=
  None.

(** A filter in which nothing can raise, as an entry of the list of
    filters. *)
Definition total (filter_func : EmailMetadata -> option FilterResult)
  : EmailMetadata -> outcome (option FilterResult) :=
  fun metadata => Returned (filter_func metadata).

(** The loop of [should_process_email] over the list of filters. *)
Fixpoint first_excluding
  (filters : list (EmailMetadata -> outcome (option FilterResult)))
  (email_metadata : EmailMetadata) : outcome FilterResult :=
  match filters with
  | [] =>
      Returned
        {| should_process := true;
           reason := "Passed all filter criteria";
           confidence := 0.8;
           filter_type := "inclusive";
           metadata := [("passed_all_filters", VBool true)] |}
  | filter_func :: rest =>
      match filter_func email_metadata with
      | Raised e => Raised e
      | Returned (Some result) =>
          if negb (should_process result) then Returned result
          else first_excluding rest email_metadata
      | Returned None => first_excluding rest email_metadata
      end
  end.

Definition should_process_email (email_metadata : EmailMetadata)
  : outcome FilterResult :=
  let filters :=
    [total _check_exclusions;
     _check_time_filters;
     _check_size_filters;
     total _check_sender_filters;
     total _check_content_filters;
     total _check_custom_queries] in
  first_excluding filters email_metadata.

(** The dictionary [categorize_email] returns; [confidence_scores] in the
    order its keys are inserted. *)
Record Categories : Type := mkCategories {
  is_newsletter : bool;
  is_promotional : bool;
  is_automated : bool;
  is_social : bool;
  is_receipt : bool;
  confidence_scores : list (string * float)
}.

Definition categorize_email (metadata : EmailMetadata) : Categories :=
  let subject := str_lower rt (get (md_subject metadata) "") in
  let sender := str_lower rt (get (md_from metadata) "") in
  let sender_email := str_lower rt (snd (parseaddr rt sender)) in
  let newsletter_score :=
    fold_left
      (fun score pattern =>
         if re_search pattern subject then (score + 0.3)%float else score)
      (newsletter_patterns self) 0.0%float in
  let newsletter_score :=
    fold_left
      (fun score domain_pattern =>
         if contains domain_pattern sender_email then (score + 0.4)%float
         else score)
      (newsletter_domains (config self)) newsletter_score in
  let automated_score :=
    fold_left
      (fun score pattern =>
         let score :=
           if re_search pattern sender_email then (score + 0.5)%float
           else score in
         if re_search pattern subject then (score + 0.3)%float else score)
      (automated_patterns self) 0.0%float in
  let promotional_keywords :=
    ["sale"; "deal"; "offer"; "discount"; "limited time"; "%"] in
  let promotional_score :=
    sum_float
      (map (fun _ => 0.2%float)
           (List.filter (fun keyword => contains keyword subject)
                        promotional_keywords)) in
  let receipt_keywords :=
    ["receipt"; "invoice"; "payment"; "order"; "purchase"; "transaction"] in
  let receipt_score :=
    sum_float
      (map (fun _ => 0.3%float)
           (List.filter (fun keyword => contains keyword subject)
                        receipt_keywords)) in
  {| is_newsletter := (0.5 <? newsletter_score)%float;
     is_promotional := (0.4 <? promotional_score)%float;
     is_automated := (0.5 <? automated_score)%float;
     is_social := false;
     is_receipt := (0.6 <? receipt_score)%float;
     confidence_scores :=
       [("newsletter", min_float newsletter_score 1.0);
        ("automated", min_float automated_score 1.0);
        ("promotional", min_float promotional_score 1.0);
        ("receipt", min_float receipt_score 1.0)] |}.

(** The clause [keyword:int(bound * 1024 * 1024)] of a size bound that is
    set, no clause otherwise. *)
Definition size_clause (keyword : string) (bound : option float)
  : outcome (list string) :=
  match bound with
  | Some mb =>
      if truthy_float mb then
        match int_of_float (mb * 1024 * 1024)%float with
        | Returned size_bytes => Returned [keyword ++ str_int size_bytes]
        | Raised e => Raised e
        end
      else Returned []
  | None => Returned []
  end.

Definition build_gmail_query : outcome string :=
  let cfg := config self in
  let older :=
    if truthy_int (older_than_days cfg)
    then ["older_than:" ++ str_int (older_than_days cfg) ++ "d"] else [] in
  let newer :=
    match newer_than_days cfg with
    | Some n =>
        if truthy_int n then ["newer_than:" ++ str_int n ++ "d"] else []
    | None => []
    end in
  match size_clause "larger:" (min_size_mb cfg) with
  | Raised e => Raised e
  | Returned larger =>
  match size_clause "smaller:" (max_size_mb cfg) with
  | Raised e => Raised e
  | Returned smaller =>
  let query_parts :=
    (older ++ newer ++ larger ++ smaller
     ++ map (fun label => "-label:" ++ label)%string (exclude_labels cfg)
     ++ map (fun folder => "-in:" ++ folder)%string (exclude_folders cfg)
     ++ (if truthy_list (include_labels cfg) then
           let label_parts :=
             map (fun label => "label:" ++ label)%string
                 (include_labels cfg) in
           ["(" ++ String.concat " OR " label_parts ++ ")"]%string
         else [])
     ++ (if truthy_list (exclude_senders cfg) then
           map (fun sender => "-from:" ++ sender)%string
               (exclude_senders cfg)
         else [])
     ++ (if truthy_list (include_senders cfg) then
           let sender_parts :=
             map (fun sender => "from:" ++ sender)%string
                 (include_senders cfg) in
           ["(" ++ String.concat " OR " sender_parts ++ ")"]%string
         else [])
     ++ custom_queries cfg)%list in
  Returned (String.concat " " query_parts)
  end end.

End Methods.

(** [s.lower()] for text [s] in ASCII and the letters of Latin-1: the
    capital letters U+00C0 to U+00DE, without the sign U+00D7, are the bytes
    195 and 128 to 158 in UTF-8, and their small letters are 32 further. *)
Fixpoint latin1_lower (s : string) : string :=
  match s with
  | EmptyString => EmptyString
  | String c s' =>
      match s' with
      | String d s'' =>
          let n := nat_of_ascii d in
          if Ascii.eqb c "195" && (128 <=? n)%nat && (n <=? 158)%nat
             && negb (n =? 151)%nat
          then String c (String (ascii_of_nat (n + 32)) (latin1_lower s''))
          else String (lower_ascii c) (latin1_lower s')
      | EmptyString => String (lower_ascii c) EmptyString
      end
  end.

(** On ASCII text it is [ascii_lower]. *)
Definition latin1_lower_ascii (s : string) :
  is_ascii s = true -> latin1_lower s = ascii_lower s.
Proof.
  induction s as [|c s IH]; [reflexivity|].
  cbn [is_ascii]. intros H. apply andb_true_iff in H as [Hc Hs].
  specialize (IH Hs). cbn [ascii_lower]. rewrite <- IH.
  destruct s as [|d s]; [reflexivity|]. cbn [latin1_lower].
  destruct (Ascii.eqb_spec c "195") as [->|Hne]; [discriminate Hc|].
  reflexivity.
Qed.

(** A runtime for the examples, which are in ASCII and Latin-1: [str.lower]
    is [latin1_lower]; on a bare address such as [sales@retailer.com], and
    on the empty string, [parseaddr] returns an empty display name and the
    string itself. The two float formats are not needed to decide any
    example and are given as empty text. *)
Definition bare_address_runtime : runtime :=
  {| parseaddr := fun addr => ("", addr);
     format_2f := fun _ => "";
     str_float := fun _ => "";
     str_lower := latin1_lower;
     str_lower_ascii := latin1_lower_ascii |}.

(** The pipeline accepts an email: it returns the decision to process
    it. *)
Definition accepts (o : outcome FilterResult) : bool :=
  match o with
  | Returned result => should_process result
  | Raised _ => false
  end.

(** [d[key]] on the dictionary of scores. *)
Fixpoint score_of (key : string) (scores : list (string * float))
  : option float :=
  match scores with
  | [] => None
  | (k, x) :: rest => if String.eqb k key then Some x else score_of key rest
  end.

(** The decision of the pipeline when no filter excludes the email. *)
Definition passed_all_filters : FilterResult :=
  {| should_process := true;
     reason := "Passed all filter criteria";
     confidence := 0.8;
     filter_type := "inclusive";
     metadata := [("passed_all_filters", VBool true)] |}.

(** The decision of the time filter on an email without a date. *)
Definition date_parse_error : FilterResult :=
  {| should_process := false;
     reason := "Unable to parse email date";
     confidence := 0.5;
     filter_type := "time";
     metadata := [("date_parse_error", VBool true)] |}.

(** Examples, after the test emails of the module: a clock, naive dates a
    number of days before it, and three emails. *)
Definition example_clock : clock := mkClock 1700000000000000 0.

Definition days_ago (n : Z) : datetime :=
  mkDatetime (1700000000000000 - n * microseconds_per_day) None.

Definition meeting_email (date : option datetime) : EmailMetadata :=
  {| md_label_ids := Some ["INBOX"; "IMPORTANT"];
     md_from := Some "boss@company.com";
     md_subject := Some "Important Meeting Tomorrow";
     md_date := date;
     md_size_estimate := Some 25000%Z |}.

Definition offer_email : EmailMetadata :=
  {| md_label_ids := Some ["INBOX"; "PROMOTIONS"];
     md_from := Some "sales@retailer.com";
     md_subject := Some "Special Offer - 50% Off!";
     md_date := Some (days_ago 500);
     md_size_estimate := Some 75000%Z |}.

(** The filter of the default configuration, and one that also sets a
    minimum size of 1 MB. *)
Definition default_filter : EmailFilter := new_EmailFilter default_FilterConfig.


(** The configuration [{older_than_days: 30, exclude_labels: [SENT]}] with
    every other list empty and every other bound unset. *)
Definition sent_30_config : FilterConfig :=
  new_FilterConfig (Some 30%Z) None None None None
                   (Some []) (Some []) None (Some ["SENT"]) (Some [])
                   (Some []) (Some []).

(** An email that carries a date and no other key. *)
Definition bare_email (date : option datetime) : EmailMetadata :=
  {| md_label_ids := None;
     md_from := None;
     md_subject := None;
     md_date := date;
     md_size_estimate := None |}.




End EmailFilter.

(** ** Further example configurations *)

Module Examples.

Import EmailFilter.

(** A filter asking for emails older than 365 days and newer than 30
    days. *)
Definition narrow_filter : EmailFilter :=
  new_EmailFilter
    (new_FilterConfig (Some 365%Z) (Some 30%Z) None None None
                      None None None None None None None).

(** A filter that excludes a sender, written with capitals. *)
Definition no_boss_filter : EmailFilter :=
  new_EmailFilter
    (new_FilterConfig None None None None None
                      (Some ["Boss@Company.com"]) None None (Some [])
                      None (Some []) None).

(** A filter that excludes a sender written with an accent, and an email
    of that sender, in capitals. *)
Definition no_ecole_filter : EmailFilter :=
  new_EmailFilter
    (new_FilterConfig None None None None None
                      (Some ["école"]) None None (Some [])
                      None (Some []) None).

Definition ecole_email : EmailMetadata :=
  {| md_label_ids := Some ["INBOX"];
     md_from := Some "ÉCOLE@EXAMPLE.ORG";
     md_subject := Some "Rentrée";
     md_date := Some (days_ago 400);
     md_size_estimate := Some 25000%Z |}.


End Examples.

(** ** gmail_client.py: searching *)

Module GmailSearch.

(** The request [messages().list(userId='me', q=..., pageToken=...,
    maxResults=...)]. *)
Record list_request : Type := mkListRequest {
  q : string;
  pageToken : option string;
  maxResults : Z
}.

(** Truthiness of a string. *)
Definition truthy_str (s : string) : bool :=
  match s with EmptyString => false | String _ _ => true end.

(** [l[:n]]: a negative [n] counts from the end. *)
Definition slice_to {A} (l : list A) (n : Z) : list A :=
  if (0 <=? n)%Z then firstn (Z.to_nat n) l
  else firstn (length l - Z.to_nat (- n)) l.

Section Search.

(** The entries of a result page, dictionaries with an id and a thread
    id. *)
Context {message_ref : Type}.

(** The response dictionary of a list request: ['messages'] and
    ['nextPageToken'], each possibly absent. *)
Record list_response : Type := mkListResponse {
  messages : option (list message_ref);
  nextPageToken : option string
}.

(** The service, as far as list requests go: its answer may depend on the
    list requests executed before. *)
Definition list_service : Type :=
  list list_request -> list_request -> outcome list_response.

Variable service : list_service.

(** The [while True] loop of [search_messages]; [None] when the loop is
    still running after [fuel] iterations. *)
Fixpoint search_loop (fuel : nat) (query : string) (max_results : option Z)
  (messages_so_far : list message_ref) (page_token : option string)
  (h : list list_request)
  : option (outcome (list message_ref) * list list_request) :=
  match fuel with
  | O => None
  | S fuel' =>
      let request :=
        mkListRequest query page_token
          (match max_results with
           | Some n => if truthy_int n then Z.min 500 n else 500%Z
           | None => 500%Z
           end) in
      match service h request with
      | Raised e => Some (Raised e, (h ++ [request])%list)
      | Returned response =>
          let h' := (h ++ [request])%list in
          let next_page (all_messages : list message_ref) :=
            let page_token := nextPageToken response in
            if negb (truthy_opt truthy_str page_token)
            then Some (Returned all_messages, h')
            else search_loop fuel' query max_results all_messages
                             page_token h' in
          match messages response with
          | Some page =>
              let all_messages := (messages_so_far ++ page)%list in
              match max_results with
              | Some n =>
                  if truthy_int n
                     && (n <=? Z.of_nat (length all_messages))%Z
                  then Some (Returned (slice_to all_messages n), h')
                  else next_page all_messages
              | None => next_page all_messages
              end
          | None => next_page messages_so_far
          end
      end
  end.

Definition search_messages (fuel : nat) (query : string)
  (max_results : option Z) (h : list list_request)
  : option (outcome (list message_ref) * list list_request) :=
  match search_loop fuel query max_results [] None h with
  | Some (Raised (HttpError t), h') =>
      Some (Raised (GmailAPIError ("Message search failed: " ++ t)), h')
  | result => result
  end.

(** A service that serves the given pages one after the other from history
    [h] on: it answers the request that carries [token] with the first page
    and a non-empty token for the next one, and the last page without a
    token. *)
Fixpoint serves (query : string) (page_size : Z) (h : list list_request)
  (token : option string) (pages : list (option (list message_ref))) : Prop :=
  match pages with
  | [] => False
  | page :: rest =>
      exists next,
        service h (mkListRequest query token page_size)
        = Returned (mkListResponse page next)
        /\ match rest with
           | [] => truthy_opt truthy_str next = false
           | _ :: _ =>
               truthy_opt truthy_str next = true
               /\ serves query page_size
                    (h ++ [mkListRequest query token page_size])%list
                    next rest
           end
  end.

(** The messages of a list of pages, in order. *)
Definition all_pages (pages : list (option (list message_ref)))
  : list message_ref :=
  concat (map (fun page => match page with Some l => l | None => [] end)
              pages).

End Search.

(** An example service with three pages, the second without a
    ['messages'] key, identified by the number of requests seen. *)
Definition three_pages : @list_service string :=
  fun h rq =>
    match length h with
    | 0%nat => Returned (mkListResponse (Some ["a"; "b"]) (Some "t1"))
    | 1%nat => Returned (mkListResponse None (Some "t2"))
    | _ => Returned (mkListResponse (Some ["c"; "d"; "e"]) None)
    end.

(** An example service that throttles the second request. *)
Definition second_page_throttled : @list_service string :=
  fun h rq =>
    match length h with
    | 0%nat => Returned (mkListResponse (Some ["a"; "b"]) (Some "t1"))
    | _ => Raised (HttpError "429 rateLimitExceeded")
    end.

End GmailSearch.

(** ** gmail_client.py: extracting metadata *)

Module MessageMetadata.

Import GmailSearch EmailFilter.

(** A part of a message payload, by the keys the client reads: ['headers']
    (a list of name and value pairs, empty when absent), ['filename'],
    ['body']['attachmentId'] ([None] when either key is absent) and
    ['parts'] (empty when absent). The payload itself is such a part. *)
Set Warnings "-register-all".
Inductive part : Type :=
| mkPart (headers : list (string * string)) (filename : option string)
         (attachmentId : option string) (parts : list part).

Definition part_headers (p : part) : list (string * string) :=
  match p with mkPart headers _ _ _ => headers end.

Definition part_parts (p : part) : list part :=
  match p with mkPart _ _ _ parts => parts end.

(** [part.get('filename') and part.get('body', {}).get('attachmentId')],
    as a truth value. *)
Definition is_attachment (p : part) : bool :=
  match p with
  | mkPart _ filename attachmentId _ =>
      truthy_opt truthy_str filename && truthy_opt truthy_str attachmentId
  end.

Fixpoint _has_attachments (payload : part) : bool :=
  match payload with
  | mkPart _ _ _ parts =>
      existsb (fun part => is_attachment part || _has_attachments part) parts
  end.

Fixpoint _count_attachments (payload : part) : Z :=
  match payload with
  | mkPart _ _ _ parts =>
      fold_left
        (fun count part =>
           ((if is_attachment part then count + 1 else count)
            + _count_attachments part)%Z)
        parts 0%Z
  end.

(** Induction on parts, with the property available for every sub-part. *)
Fixpoint part_induction (P : part -> Prop)
  (step : forall headers filename attachmentId parts,
      Forall P parts -> P (mkPart headers filename attachmentId parts))
  (p : part) : P p :=
  match p with
  | mkPart headers filename attachmentId parts =>
      step headers filename attachmentId parts
        ((fix all (l : list part) : Forall P l :=
            match l with
            | [] => Forall_nil P
            | q :: l' => Forall_cons q (part_induction P step q) (all l')
            end) parts)
  end.

(** A dictionary from strings to strings, in insertion order: [d[k] = v]
    and [d.get(k, default)]. *)
Fixpoint dict_set (d : list (string * string)) (k v : string)
  : list (string * string) :=
  match d with
  | [] => [(k, v)]
  | (k', v') :: d' =>
      if String.eqb k' k then (k', v) :: d' else (k', v') :: dict_set d' k v
  end.

Fixpoint dict_get (d : list (string * string)) (k default : string)
  : string :=
  match d with
  | [] => default
  | (k', v') :: d' => if String.eqb k' k then v' else dict_get d' k default
  end.

(** A message dictionary of the API, by the keys the client reads. *)
Record GmailMessage : Type := mkGmailMessage {
  msg_id : option string;
  msg_threadId : option string;
  msg_labelIds : option (list string);
  msg_sizeEstimate : option Z;
  msg_payload : option part
}.

(** The dictionary [extract_message_metadata] returns. *)
Record Metadata : Type := mkMetadata {
  id : option string;
  thread_id : option string;
  label_ids : list string;
  size_estimate : Z;
  subject : string;
  from : string;
  to : string;
  date_str : string;
  message_id_header : string;
  date : option datetime;
  has_attachments : bool;
  attachment_count : Z
}.

Section Extract.

Variable rt : runtime.

(** [email.utils.parsedate_to_datetime], which raises on a string that is
    not a date. *)
Variable parsedate_to_datetime : string -> outcome datetime.

Definition extract_message_metadata (message : GmailMessage) : Metadata :=
  let payload := get (msg_payload message) (mkPart [] None None []) in
  let headers :=
    fold_left
      (fun headers header =>
         dict_set headers (str_lower rt (fst header)) (snd header))
      (part_headers payload) [] in
  let date_str := dict_get headers "date" "" in
  {| id := msg_id message;
     thread_id := msg_threadId message;
     label_ids := get (msg_labelIds message) [];
     size_estimate := get (msg_sizeEstimate message) 0%Z;
     subject := dict_get headers "subject" "";
     from := dict_get headers "from" "";
     to := dict_get headers "to" "";
     date_str := date_str;
     message_id_header := dict_get headers "message-id" "";
     date :=
       if truthy_str date_str then
         match parsedate_to_datetime date_str with
         | Returned d => Some d
         | Raised _ => None
         end
       else None;
     has_attachments := _has_attachments payload;
     attachment_count := _count_attachments payload |}.

End Extract.

(** The extracted dictionary as the filter reads it. *)
Definition as_email_metadata (m : Metadata) : EmailMetadata :=
  {| md_label_ids := Some (label_ids m);
     md_from := Some (from m);
     md_subject := Some (subject m);
     md_date := date m;
     md_size_estimate := Some (size_estimate m) |}.

(** The value of the last header with the given lower-cased name, [""]
    when there is none. *)
Definition last_header (rt : runtime) (name : string)
  (headers : list (string * string)) : string :=
  match find (fun header => String.eqb (str_lower rt (fst header)) name)
             (rev headers) with
  | Some header => snd header
  | None => ""
  end.

(** An example: a message with two Subject headers, no Date header, one
    attached file, and an inline part with a nested attached file. *)
Definition example_message : GmailMessage :=
  {| msg_id := Some "m1";
     msg_threadId := Some "t1";
     msg_labelIds := Some ["INBOX"];
     msg_sizeEstimate := Some 2048%Z;
     msg_payload :=
       Some (mkPart [("From", "sales@retailer.com"); ("Subject", "first");
                     ("SUBJECT", "second")]
                    None None
                    [mkPart [] (Some "a.pdf") (Some "att1") [];
                     mkPart [] None None
                            [mkPart [] (Some "b.png") (Some "att2") [];
                             mkPart [] (Some "c.txt") None []]]) |}.

(** A date parser for the examples, which rejects every string. *)
Definition no_dates : string -> outcome datetime :=
  fun s => Raised (ValueError "not a date").

End MessageMetadata.

(** ** email_filter.py: statistics *)

Module FilterStats.

Import EmailFilter.

(** The dictionary [stats['categories']], with its five fixed keys. *)
Record CategoryCounts : Type := mkCategoryCounts {
  newsletter : Z;
  promotional : Z;
  automated : Z;
  receipt : Z;
  social : Z
}.

(** [stats['size_distribution']]. *)
Record SizeDistribution : Type := mkSizeDistribution {
  small : Z;
  medium : Z;
  large : Z
}.

(** [stats['age_distribution']]; [medium_age] is its key ['medium']. *)
Record AgeDistribution : Type := mkAgeDistribution {
  recent : Z;
  medium_age : Z;
  old : Z
}.

(** The dictionary [get_filter_stats] returns. *)
Record Stats : Type := mkStats {
  total_emails : Z;
  would_process : Z;
  excluded_by_filter : list (string * Z);
  categories : CategoryCounts;
  size_distribution : SizeDistribution;
  age_distribution : AgeDistribution;
  process_percentage : number
}.

(** A dictionary of counters: [d.get(k, default)] and [d[k] = v]. *)
Fixpoint counter_get (d : list (string * Z)) (k : string) (default : Z) : Z :=
  match d with
  | [] => default
  | (k', v') :: d' => if String.eqb k' k then v' else counter_get d' k default
  end.

Fixpoint counter_set (d : list (string * Z)) (k : string) (v : Z)
  : list (string * Z) :=
  match d with
  | [] => [(k, v)]
  | (k', v') :: d' =>
      if String.eqb k' k then (k', v) :: d' else (k', v') :: counter_set d' k v
  end.

(** The sum of the counters of a dictionary. *)
Definition counter_total (d : list (string * Z)) : Z :=
  fold_right (fun kv total => (snd kv + total)%Z) 0%Z d.

Section Stats.

Variable rt : runtime.

(** The clock as read while the [i]-th email is handled: by the time filter
    and by the age distribution. *)
Variable filter_clock : nat -> clock.
Variable age_clock : nat -> clock.

Variable self : EmailFilter.

(** The body of the loop of [get_filter_stats] for the [i]-th email. *)
Definition count_email (i : nat) (metadata : EmailMetadata) (stats : Stats)
  : outcome Stats :=
  match should_process_email rt (filter_clock i) self metadata with
  | Raised e => Raised e
  | Returned result =>
  let would_process' :=
    if should_process result then (would_process stats + 1)%Z
    else would_process stats in
  let excluded' :=
    if should_process result then excluded_by_filter stats
    else
      let filter_type := filter_type result in
      counter_set (excluded_by_filter stats) filter_type
        (counter_get (excluded_by_filter stats) filter_type 0 + 1)%Z in
  let cats := categorize_email rt self metadata in
  let bump (flag : bool) (n : Z) := if flag then (n + 1)%Z else n in
  let categories' :=
    {| newsletter := bump (is_newsletter cats) (newsletter (categories stats));
       promotional :=
         bump (is_promotional cats) (promotional (categories stats));
       automated := bump (is_automated cats) (automated (categories stats));
       receipt := bump (is_receipt cats) (receipt (categories stats));
       social := bump (is_social cats) (social (categories stats)) |} in
  match int_truediv (get (md_size_estimate metadata) 0%Z) (1024 * 1024) with
  | Raised e => Raised e
  | Returned size_mb =>
  let sizes := size_distribution stats in
  let sizes' :=
    if (size_mb <? 1)%float then
      {| small := small sizes + 1; medium := medium sizes;
         large := large sizes |}
    else if (size_mb <? 10)%float then
      {| small := small sizes; medium := medium sizes + 1;
         large := large sizes |}
    else
      {| small := small sizes; medium := medium sizes;
         large := large sizes + 1 |} in
  let finish (ages' : AgeDistribution) :=
    {| total_emails := total_emails stats;
       would_process := would_process';
       excluded_by_filter := excluded';
       categories := categories';
       size_distribution := sizes';
       age_distribution := ages';
       process_percentage := process_percentage stats |} in
  let ages := age_distribution stats in
  match md_date metadata with
  | Some date =>
      match tzinfo date with
      | Some _ =>
          Raised (TypeError
                    "can't subtract offset-naive and offset-aware datetimes")
      | None =>
          let age_days :=
            days_between (datetime_now (age_clock i) None) date in
          Returned
            (finish
               (if (age_days <? 30)%Z then
                  {| recent := recent ages + 1; medium_age := medium_age ages;
                     old := old ages |}
                else if (age_days <? 365)%Z then
                  {| recent := recent ages; medium_age := medium_age ages + 1;
                     old := old ages |}
                else
                  {| recent := recent ages; medium_age := medium_age ages;
                     old := old ages + 1 |}))
      end
  | None => Returned (finish ages)
  end
  end
  end.

Fixpoint count_emails (i : nat) (emails_metadata : list EmailMetadata)
  (stats : Stats) : outcome Stats :=
  match emails_metadata with
  | [] => Returned stats
  | metadata :: rest =>
      match count_email i metadata stats with
      | Returned stats' => count_emails (S i) rest stats'
      | Raised e => Raised e
      end
  end.

Definition get_filter_stats (emails_metadata : list EmailMetadata)
  : outcome Stats :=
  let stats :=
    {| total_emails := Z.of_nat (length emails_metadata);
       would_process := 0;
       excluded_by_filter := [];
       categories := mkCategoryCounts 0 0 0 0 0;
       size_distribution := mkSizeDistribution 0 0 0;
       age_distribution := mkAgeDistribution 0 0 0;
       process_percentage := NInt 0 |} in
  match count_emails 0 emails_metadata stats with
  | Raised e => Raised e
  | Returned stats =>
      let with_percentage (percentage : number) :=
        {| total_emails := total_emails stats;
           would_process := would_process stats;
           excluded_by_filter := excluded_by_filter stats;
           categories := categories stats;
           size_distribution := size_distribution stats;
           age_distribution := age_distribution stats;
           process_percentage := percentage |} in
      if (0 <? total_emails stats)%Z then
        match int_truediv (would_process stats) (total_emails stats) with
        | Raised e => Raised e
        | Returned ratio =>
            Returned (with_percentage (NFloat (ratio * 100)%float))
        end
      else Returned (with_percentage (NInt 0))
  end.

(** The outcomes of the pipeline on the emails of a list, the first being
    the [i]-th email handled. *)
Fixpoint decisions (i : nat) (emails_metadata : list EmailMetadata)
  : list (outcome FilterResult) :=
  match emails_metadata with
  | [] => []
  | metadata :: rest =>
      should_process_email rt (filter_clock i) self metadata
      :: decisions (S i) rest
  end.

End Stats.

(** The number of elements of a list that satisfy a test. *)
Definition count_if {A} (f : A -> bool) (l : list A) : Z :=
  Z.of_nat (length (List.filter f l)).

(** The pipeline returns a rejection by the filter of the given type. *)
Definition rejected_by (t : string) (o : outcome FilterResult) : bool :=
  match o with
  | Returned result =>
      negb (should_process result) && String.eqb (filter_type result) t
  | Raised _ => false
  end.





End FilterStats.

(** * Properties *)

(** ** The batch operations of the client *)

Module ClientProps.

Import GmailClient.

Lemma bind_ret_r {A} (m : M A) h : bind m ret h = m h.
Proof. unfold bind, ret. destruct (m h) as [[a|e] h']; reflexivity. Qed.

Lemma for_each_app {A S} (l1 l2 : list A) (body : A -> S -> M S) s h :
  for_each (l1 ++ l2)%list body s h
  = bind (for_each l1 body s) (for_each l2 body) h.
Proof.
  revert s h. induction l1 as [|x l1 IH]; intros s h; simpl.
  - reflexivity.
  - unfold bind. destruct (body x s h) as [[s'|e] h']; [apply IH | reflexivity].
Qed.

(** Every list is covered by its batches: [range_step] reaches its end. *)
Lemma range_step_covers (n step : nat) :
  (0 < step)%nat -> (n <= (n + step - 1) / step * step)%nat.
Proof.
  intros Hstep.
  pose proof (Nat.div_mod_eq (n + step - 1) step) as Hdm.
  pose proof (Nat.mod_upper_bound (n + step - 1) step) as Hlt.
  nia.
Qed.

Section Client.

Context {message : Type}.
Variable self : GmailClient message.

(** *** Single-message operations *)

Lemma delete_message_run id permanent h :
  delete_message self id permanent h
  = (match service self h (mutation permanent id) with
     | Returned _ => Returned true
     | Raised (HttpError t) =>
         Raised (GmailAPIError ("Failed to delete message " ++ id ++ ": " ++ t))
     | Raised e => Raised e
     end, (h ++ [mutation permanent id])%list).
Proof.
  unfold delete_message, try_except, bind, execute, mutation, ret, raise.
  destruct permanent;
    match goal with |- context [service self h ?rq] =>
      destruct (service self h rq) as [m|[]]; reflexivity
    end.
Qed.

Lemma get_message_run id format h :
  get_message self id format h
  = (match service self h (MessagesGet id format) with
     | Returned m => Returned m
     | Raised (HttpError t) =>
         Raised (GmailAPIError ("Failed to get message " ++ id ++ ": " ++ t))
     | Raised e => Raised e
     end, (h ++ [MessagesGet id format])%list).
Proof.
  unfold get_message, try_except, bind, execute, ret, raise.
  destruct (service self h (MessagesGet id format)) as [m|[]]; reflexivity.
Qed.

(** *** The deletion loop *)

Lemma delete_into_run permanent id s f h :
  delete_into self permanent id (s, f) h
  = (match service self h (mutation permanent id) with
     | Returned _ => Returned ((s ++ [id])%list, f)
     | Raised (HttpError _) | Raised (GmailAPIError _) =>
         Returned (s, (f ++ [id])%list)
     | Raised e => Raised e
     end, (h ++ [mutation permanent id])%list).
Proof.
  unfold delete_into, try_except, bind. rewrite delete_message_run.
  destruct (service self h (mutation permanent id)) as [m|[]]; reflexivity.
Qed.

Lemma delete_loop_spec permanent ids : forall s f h,
  (forall h' id, In id ids ->
     http_reply (service self h' (mutation permanent id))) ->
  for_each ids (delete_into self permanent) (s, f) h
  = (Returned
       ((s ++ map fst (List.filter succeeded
                         (mutation_replies (service self) permanent h ids)))%list,
        (f ++ map fst (List.filter (fun r => negb (succeeded r))
                         (mutation_replies (service self) permanent h ids)))%list),
     (h ++ map (mutation permanent) ids)%list).
Proof.
  induction ids as [|id ids IH]; intros s f h Hapi.
  - simpl. unfold ret. now rewrite !app_nil_r.
  - cbn [for_each mutation_replies]. unfold bind. rewrite delete_into_run.
    pose proof (Hapi h id (or_introl eq_refl)) as Hid.
    destruct (service self h (mutation permanent id)) as [m|e] eqn:E.
    + rewrite IH by (intros; apply Hapi; now right).
      cbn. now rewrite <- !app_assoc.
    + destruct e; try contradiction.
      rewrite IH by (intros; apply Hapi; now right).
      cbn. now rewrite <- !app_assoc.
Qed.

Lemma delete_messages_batch_spec permanent ids h :
  (forall h' id, In id ids ->
     http_reply (service self h' (mutation permanent id))) ->
  delete_messages_batch self ids permanent h
  = (Returned
       {| success :=
            map fst (List.filter succeeded
                       (mutation_replies (service self) permanent h ids));
          failed :=
            map fst (List.filter (fun r => negb (succeeded r))
                       (mutation_replies (service self) permanent h ids)) |},
     (h ++ map (mutation permanent) ids)%list).
Proof.
  intros Hapi. unfold delete_messages_batch.
  destruct ids as [|id ids].
  - simpl. unfold ret. now rewrite app_nil_r.
  - cbn [truthy_list negb]. unfold bind.
    rewrite delete_loop_spec by exact Hapi. reflexivity.
Qed.

Lemma mutation_replies_app (sv : service_t message) permanent l1 : forall h l2,
  mutation_replies sv permanent h (l1 ++ l2)%list
  = (mutation_replies sv permanent h l1
     ++ mutation_replies sv permanent (h ++ map (mutation permanent) l1)%list l2)%list.
Proof.
  induction l1 as [|id l1 IH]; intros h l2; simpl.
  - now rewrite app_nil_r.
  - rewrite IH, <- app_assoc. reflexivity.
Qed.

Lemma mutation_replies_In (sv : service_t message) permanent ids : forall h y,
  In y ids -> exists o, In (y, o) (mutation_replies sv permanent h ids).
Proof.
  induction ids as [|id ids IH]; intros h y Hy; simpl in *.
  - contradiction.
  - destruct Hy as [->|Hy].
    + eexists. left. reflexivity.
    + destruct (IH (h ++ [mutation permanent id])%list y Hy) as [o Ho].
      exists o. now right.
Qed.

Ltac step_replies :=
  cbn [mutation_replies List.filter];
  repeat match goal with
    | |- context [succeeded (?i, ?o)] =>
        change (succeeded (i, o)) with (returned o)
    end.

Lemma mutation_replies_all_ok (sv : service_t message) permanent ids : forall h,
  (forall h' id, In id ids -> exists m, sv h' (mutation permanent id) = Returned m) ->
  map fst (List.filter succeeded (mutation_replies sv permanent h ids)) = ids
  /\ map fst (List.filter (fun r => negb (succeeded r))
                (mutation_replies sv permanent h ids)) = [].
Proof.
  induction ids as [|id ids IH]; intros h Hok.
  - split; reflexivity.
  - destruct (Hok h id (or_introl eq_refl)) as [m Hm].
    destruct (IH (h ++ [mutation permanent id])%list) as [IH1 IH2].
    { intros; apply Hok; now right. }
    step_replies. rewrite Hm. cbn [returned negb map fst].
    now rewrite IH1, IH2.
Qed.

Lemma mutation_replies_one_bad (sv : service_t message) permanent bad ids :
  forall h,
  (forall h', exists t, sv h' (mutation permanent bad) = Raised (HttpError t)) ->
  (forall h' id, In id ids -> id <> bad ->
     exists m, sv h' (mutation permanent id) = Returned m) ->
  map fst (List.filter succeeded (mutation_replies sv permanent h ids))
  = List.filter (fun id => negb (String.eqb id bad)) ids
  /\ map fst (List.filter (fun r => negb (succeeded r))
                (mutation_replies sv permanent h ids))
     = List.filter (fun id => String.eqb id bad) ids.
Proof.
  intros h Hbad Hok. revert h.
  induction ids as [|id ids IH]; intros h.
  - split; reflexivity.
  - destruct (IH (fun h' i Hi => Hok h' i (or_intror Hi))
                (h ++ [mutation permanent id])%list) as [IH1 IH2].
    step_replies.
    destruct (String.eqb_spec id bad) as [->|Hne].
    + destruct (Hbad h) as [t Ht]. rewrite Ht. cbn [returned negb map fst].
      now rewrite IH1, IH2.
    + destruct (Hok h id (or_introl eq_refl) Hne) as [m Hm]. rewrite Hm.
      cbn [returned negb map fst]. now rewrite IH1, IH2.
Qed.

Lemma filter_eqb_absent (bad : string) ids :
  ~ In bad ids -> List.filter (fun id => String.eqb id bad) ids = [].
Proof.
  induction ids as [|id ids IH]; intros Hnot; simpl.
  - reflexivity.
  - destruct (String.eqb_spec id bad) as [->|Hne].
    + exfalso. apply Hnot. now left.
    + apply IH. intros Hin. apply Hnot. now right.
Qed.

Lemma filter_eqb_NoDup (bad : string) ids :
  NoDup ids -> In bad ids ->
  List.filter (fun id => String.eqb id bad) ids = [bad].
Proof.
  induction 1 as [|id ids Hnotin Hnd IH]; intros Hin; simpl.
  - contradiction.
  - destruct (String.eqb_spec id bad) as [->|Hne].
    + now rewrite filter_eqb_absent.
    + destruct Hin as [Heq|Hin]; [contradiction | now apply IH].
Qed.

Lemma filter_partition_length {A} (f : A -> bool) (l : list A) :
  (length (List.filter f l) + length (List.filter (fun a => negb (f a)) l)
   = length l)%nat.
Proof.
  induction l as [|a l IH]; simpl; [reflexivity|].
  destruct (f a); simpl; lia.
Qed.

Lemma calls_on_mutations permanent x ids :
  calls_on x (map (mutation permanent) ids) = count_occ string_dec ids x.
Proof.
  unfold calls_on. induction ids as [|id ids IH]; simpl; [reflexivity|].
  replace (request_id (mutation permanent id)) with id
    by (destruct permanent; reflexivity).
  destruct (String.eqb_spec id x) as [->|Hne]; destruct (string_dec _ _);
    simpl; congruence.
Qed.

(** *** Dry-run mode *)

(** C1 (as the code has it): [delete_messages_batch] never reads
    [dry_run_mode]: run on the same service it behaves the same under every
    configuration. It issues one trash (or, if [permanent], delete) request
    per id, in list order, whenever the service answers each of them by
    executing it or by an [HttpError]; and when every one is executed it
    returns the id list as the success list with an empty failed list. This
    holds with [dry_run_mode] on as well. *)
Theorem delete_messages_batch_ignores_dry_run ids permanent h :
  (forall cfg,
     delete_messages_batch (mkGmailClient cfg (service self)) ids permanent h
     = delete_messages_batch self ids permanent h)
  /\ ((forall h' id, In id ids ->
         http_reply (service self h' (mutation permanent id))) ->
      snd (delete_messages_batch self ids permanent h)
      = (h ++ map (mutation permanent) ids)%list)
  /\ ((forall h' id, In id ids ->
         exists m, service self h' (mutation permanent id) = Returned m) ->
      delete_messages_batch self ids permanent h
      = (Returned {| success := ids; failed := [] |},
         (h ++ map (mutation permanent) ids)%list)).
Proof.
  split; [|split].
  - intros cfg. destruct self as [cfg0 sv]. reflexivity.
  - intros Hapi. now rewrite delete_messages_batch_spec.
  - intros Hok. rewrite delete_messages_batch_spec.
    + destruct (mutation_replies_all_ok (service self) permanent ids h Hok)
        as [Hs Hf].
      now rewrite Hs, Hf.
    + intros h' id Hin. destruct (Hok h' id Hin) as [m ->]. exact I.
Qed.

(** *** Partial failure *)

(** C2 (as the code has it): among [N] distinct ids, if the mutation call on
    exactly one id always raises [HttpError] and the calls on the others
    always succeed, the batch returns without raising, with the [N-1] other
    ids in the success list and the one id in the failed list, [N] in
    total. *)
Theorem delete_messages_batch_partial_failure ids permanent bad h :
  NoDup ids ->
  In bad ids ->
  (forall h', exists t,
     service self h' (mutation permanent bad) = Raised (HttpError t)) ->
  (forall h' id, In id ids -> id <> bad ->
     exists m, service self h' (mutation permanent id) = Returned m) ->
  exists r,
    delete_messages_batch self ids permanent h
    = (Returned r, (h ++ map (mutation permanent) ids)%list)
    /\ success r = List.filter (fun id => negb (String.eqb id bad)) ids
    /\ failed r = [bad]
    /\ length (success r) = (length ids - 1)%nat
    /\ length (failed r) = 1%nat
    /\ (length (success r) + length (failed r))%nat = length ids.
Proof.
  intros Hnd Hin Hbad Hok.
  destruct (mutation_replies_one_bad (service self) permanent bad ids h
              Hbad Hok) as [Hs Hf].
  rewrite (filter_eqb_NoDup bad ids Hnd Hin) in Hf.
  pose proof (filter_partition_length (fun id => String.eqb id bad) ids) as Hlen.
  rewrite (filter_eqb_NoDup bad ids Hnd Hin) in Hlen. simpl in Hlen.
  eexists. split.
  - rewrite delete_messages_batch_spec; [reflexivity|].
    intros h' id Hid. destruct (String.eqb_spec id bad) as [->|Hne].
    + destruct (Hbad h') as [t ->]. exact I.
    + destruct (Hok h' id Hid Hne) as [m ->]. exact I.
  - cbn [success failed]. rewrite Hs, Hf. simpl. repeat split; lia.
Qed.

(** *** Retries *)

(** C3 (as the code has it): a mutation call that fails is not retried, and
    [max_retries] is not read: the batch behaves the same under every
    configuration. On a service that answers every mutation of
    the listed ids by executing it or by an [HttpError], the batch issues
    one request per element of the list, in order; an id whose request is
    answered by an [HttpError] is put in the failed list (the id alone,
    without the error text), and the ids after it are still processed. *)
Theorem delete_messages_batch_no_retry pre x post permanent h t :
  (forall h' id, In id (pre ++ x :: post)%list ->
     http_reply (service self h' (mutation permanent id))) ->
  service self (h ++ map (mutation permanent) pre)%list (mutation permanent x)
  = Raised (HttpError t) ->
  (forall cfg,
     delete_messages_batch (mkGmailClient cfg (service self))
       (pre ++ x :: post)%list permanent h
     = delete_messages_batch self (pre ++ x :: post)%list permanent h)
  /\ exists r,
    delete_messages_batch self (pre ++ x :: post)%list permanent h
    = (Returned r, (h ++ map (mutation permanent) (pre ++ x :: post))%list)
    /\ calls_on x (map (mutation permanent) (pre ++ x :: post)%list)
       = count_occ string_dec (pre ++ x :: post)%list x
    /\ In x (failed r)
    /\ (forall y, In y post -> In y (success r) \/ In y (failed r)).
Proof.
  intros Hapi Hx. split.
  { intros cfg. destruct self as [cfg0 sv]. reflexivity. }
  eexists. split; [|split; [|split]].
  - rewrite delete_messages_batch_spec by exact Hapi. reflexivity.
  - apply calls_on_mutations.
  - cbn [failed]. rewrite mutation_replies_app. cbn [mutation_replies].
    rewrite Hx, filter_app, map_app. apply in_or_app. right.
    cbn. now left.
  - intros y Hy. cbn [success failed].
    destruct (mutation_replies_In (service self) permanent
                (pre ++ x :: post)%list h y) as [o Ho].
    { apply in_or_app. right. now right. }
    destruct (succeeded (y, o)) eqn:E.
    + left. change y with (fst (y, o)). apply in_map.
      apply filter_In. now split.
    + right. change y with (fst (y, o)). apply in_map.
      apply filter_In. split; [assumption | now rewrite E].
Qed.

(** *** Batch retrieval *)

Lemma fetch_into_run format id acc h :
  fetch_into self format id acc h
  = match get_message self id format h with
    | (Returned m, h') => (Returned (acc ++ [m])%list, h')
    | (Raised e, h') => (Raised e, h')
    end.
Proof. reflexivity. Qed.

Lemma fetch_into_acc format l : forall acc h,
  for_each l (fetch_into self format) acc h
  = match for_each l (fetch_into self format) [] h with
    | (Returned ms, h') => (Returned (acc ++ ms)%list, h')
    | (Raised e, h') => (Raised e, h')
    end.
Proof.
  induction l as [|id l IH]; intros acc h; cbn [for_each].
  - unfold ret. now rewrite app_nil_r.
  - unfold bind. rewrite !fetch_into_run.
    destruct (get_message self id format h) as [[m|e] h']; [|reflexivity].
    rewrite (IH (acc ++ [m])%list), (IH ([] ++ [m])%list).
    destruct (for_each l (fetch_into self format) [] h') as [[ms|e] h''];
      [|reflexivity].
    now rewrite <- app_assoc.
Qed.

Lemma fetch_batch_run ids format i messages h :
  fetch_batch self ids format 100 i messages h
  = reraised (for_each (firstn 100 (skipn i ids)) (fetch_into self format)
                       messages h).
Proof.
  unfold fetch_batch, try_except, bind, slice.
  replace (i + 100 - i)%nat with 100%nat by lia.
  rewrite (fetch_into_acc format _ messages).
  destruct (for_each (firstn 100 (skipn i ids)) (fetch_into self format) [] h)
    as [[ms|e] h']; reflexivity.
Qed.

(** The loop over the batches fetches the ids in list order, as one loop
    over the whole list would. *)
Lemma fetch_batches ids format n : forall k messages h,
  (length (skipn (k * 100) ids) <= n * 100)%nat ->
  for_each (map (fun j => j * 100)%nat (seq k n))
           (fetch_batch self ids format 100) messages h
  = reraised (for_each (skipn (k * 100) ids) (fetch_into self format)
                       messages h).
Proof.
  induction n as [|n IH]; intros k messages h Hlen.
  - destruct (skipn (k * 100) ids); simpl in Hlen; [reflexivity | lia].
  - cbn [seq map for_each]. unfold bind. rewrite fetch_batch_run.
    rewrite <- (firstn_skipn 100 (skipn (k * 100) ids)) at 2.
    rewrite for_each_app. unfold bind.
    destruct (for_each (firstn 100 (skipn (k * 100) ids))
                (fetch_into self format) messages h) as [[ms|e] h'];
      [|reflexivity].
    cbn [reraised]. rewrite IH.
    + now rewrite skipn_skipn.
    + rewrite length_skipn in *. lia.
Qed.

Lemma get_messages_batch_flat ids format h :
  get_messages_batch self ids format h
  = reraised (for_each ids (fetch_into self format) [] h).
Proof.
  unfold get_messages_batch. destruct ids as [|id ids]; [reflexivity|].
  cbn [truthy_list negb].
  etransitivity; [apply bind_ret_r|].
  unfold range_step.
  rewrite (fetch_batches (id :: ids) format _ 0%nat).
  - reflexivity.
  - cbn [Nat.mul skipn]. apply range_step_covers. lia.
Qed.

Lemma fetch_all_ok format pre : forall acc h,
  (forall h' id, In id pre ->
     exists m, service self h' (MessagesGet id format) = Returned m) ->
  exists ms,
    for_each pre (fetch_into self format) acc h
    = (Returned (acc ++ ms)%list,
       (h ++ map (fun id => MessagesGet id format) pre)%list)
    /\ length ms = length pre.
Proof.
  induction pre as [|id pre IH]; intros acc h Hok; cbn [for_each].
  - exists []. unfold ret. now rewrite !app_nil_r.
  - unfold bind. rewrite fetch_into_run, get_message_run.
    destruct (Hok h id (or_introl eq_refl)) as [m ->].
    destruct (IH (acc ++ [m])%list (h ++ [MessagesGet id format])%list)
      as [ms [Hrun Hlen]].
    { intros; apply Hok; now right. }
    exists (m :: ms). rewrite Hrun. split.
    + cbn [map]. now rewrite <- !app_assoc.
    + simpl. now rewrite Hlen.
Qed.

(** C4 (as the code has it): a failing metadata fetch aborts the batch
    retrieval. If the fetches of the candidates before [x] succeed and the
    fetch of [x] raises, [get_messages_batch] raises [GmailAPIError]: it
    returns no message at all, also none of those already fetched, and
    issues no request for the candidates after [x]. *)
Theorem get_messages_batch_aborts_on_failure pre x post format h e :
  (forall h' id, In id pre ->
     exists m, service self h' (MessagesGet id format) = Returned m) ->
  service self (h ++ map (fun id => MessagesGet id format) pre)%list
          (MessagesGet x format) = Raised e ->
  get_messages_batch self (pre ++ x :: post)%list format h
  = (Raised (GmailAPIError
               ("Batch message retrieval failed: "
                ++ match e with
                   | HttpError t => "Failed to get message " ++ x ++ ": " ++ t
                   | _ => str_exn e
                   end)),
     (h ++ map (fun id => MessagesGet id format) (pre ++ [x]))%list).
Proof.
  intros Hok Hx. rewrite get_messages_batch_flat, for_each_app. unfold bind.
  destruct (fetch_all_ok format pre [] h Hok) as [ms [-> _]].
  cbn [for_each]. unfold bind. rewrite fetch_into_run, get_message_run, Hx.
  rewrite map_app, app_assoc. destruct e; reflexivity.
Qed.

(** When no fetch fails the messages of all candidates are returned. *)
Lemma get_messages_batch_all_ok ids format h :
  (forall h' id, In id ids ->
     exists m, service self h' (MessagesGet id format) = Returned m) ->
  exists ms,
    get_messages_batch self ids format h
    = (Returned ms, (h ++ map (fun id => MessagesGet id format) ids)%list)
    /\ length ms = length ids.
Proof.
  intros Hok. rewrite get_messages_batch_flat.
  destruct (fetch_all_ok format ids [] h Hok) as [ms [-> Hlen]].
  now exists ms.
Qed.

End Client.

(** *** Concrete runs *)

Lemma NoDup_m123 : NoDup ["m1"; "m2"; "m3"].
Proof. repeat constructor; simpl; intuition discriminate. Qed.

Lemma failing_on_others bad e h permanent id :
  id <> bad -> failing_on bad e h (mutation permanent id) = Returned id.
Proof.
  intros Hne. unfold failing_on.
  replace (request_id (mutation permanent id)) with id
    by (destruct permanent; reflexivity).
  destruct (String.eqb_spec id bad); [contradiction | reflexivity].
Qed.

Lemma failing_on_bad bad e h permanent :
  failing_on bad e h (mutation permanent bad) = Raised e.
Proof.
  unfold failing_on.
  replace (request_id (mutation permanent bad)) with bad
    by (destruct permanent; reflexivity).
  now rewrite String.eqb_refl.
Qed.

Lemma throttled_once_http h rq : http_reply (throttled_once h rq).
Proof.
  unfold throttled_once.
  destruct (calls_on (request_id rq) h =? 0)%nat; exact I.
Qed.

(** C1, counterexample: with the default configuration, whose
    [dry_run_mode] is on, the batch trashes both messages: two requests
    reach the service. *)
Lemma dry_run_issues_requests :
  dry_run_mode (safety (config (default_client always_ok))) = true
  /\ delete_messages_batch (default_client always_ok) ["m1"; "m2"] false []
     = (Returned {| success := ["m1"; "m2"]; failed := [] |},
        [MessagesTrash "m1"; MessagesTrash "m2"])
  /\ snd (delete_messages_batch (default_client always_ok)
            ["m1"; "m2"] false []) <> [].
Proof. repeat split. discriminate. Qed.

Lemma delete_messages_batch_ignores_dry_run_witness :
  (forall h' id, In id ["m1"; "m2"] ->
     exists m, service (default_client always_ok) h' (mutation false id)
               = Returned m)
  /\ dry_run_mode (safety (config (default_client always_ok))) = true
  /\ delete_messages_batch (default_client always_ok) ["m1"; "m2"] false []
     = (Returned {| success := ["m1"; "m2"]; failed := [] |},
        [MessagesTrash "m1"; MessagesTrash "m2"]).
Proof.
  assert (Hok : forall (h' : list request) id, In id ["m1"; "m2"] ->
            exists m, service (default_client always_ok) h'
                        (mutation false id) = Returned m).
  { intros h' id _. eexists. reflexivity. }
  split; [exact Hok|]. split; [reflexivity|].
  destruct (delete_messages_batch_ignores_dry_run
              (default_client always_ok) ["m1"; "m2"] false [])
    as [_ [_ Hall]].
  exact (Hall Hok).
Defined.

(** C2, counterexample: the call on "m2" always raises, here a timeout of
    the transport and not an [HttpError], and the calls on the other two
    ids always succeed; the batch raises the timeout and "m3" is never
    attempted. *)
Lemma non_http_failure_aborts_batch :
  NoDup ["m1"; "m2"; "m3"]
  /\ (forall h, failing_on "m2" (Exception "timed out") h (mutation false "m2")
                = Raised (Exception "timed out"))
  /\ (forall h id, id <> "m2" ->
        failing_on "m2" (Exception "timed out") h (mutation false id)
        = Returned id)
  /\ delete_messages_batch
       (default_client (failing_on "m2" (Exception "timed out")))
       ["m1"; "m2"; "m3"] false []
     = (Raised (Exception "timed out"),
        [MessagesTrash "m1"; MessagesTrash "m2"]).
Proof.
  split; [exact NoDup_m123|]. split; [|split].
  - intros h. apply failing_on_bad.
  - intros h id Hne. now apply failing_on_others.
  - reflexivity.
Qed.

Lemma delete_messages_batch_partial_failure_witness :
  NoDup ["m1"; "m2"; "m3"]
  /\ In "m2" ["m1"; "m2"; "m3"]
  /\ exists r,
       delete_messages_batch
         (default_client (failing_on "m2" (HttpError "404 Not Found")))
         ["m1"; "m2"; "m3"] true []
       = (Returned r,
          ([] ++ map (mutation true) ["m1"; "m2"; "m3"])%list)
       /\ success r
          = List.filter (fun id => negb (String.eqb id "m2"))
                        ["m1"; "m2"; "m3"]
       /\ failed r = ["m2"]
       /\ length (success r) = (length ["m1"; "m2"; "m3"] - 1)%nat
       /\ length (failed r) = 1%nat
       /\ (length (success r) + length (failed r))%nat
          = length ["m1"; "m2"; "m3"].
Proof.
  split; [exact NoDup_m123|]. split; [simpl; tauto|].
  apply (delete_messages_batch_partial_failure
           (default_client (failing_on "m2" (HttpError "404 Not Found")))
           ["m1"; "m2"; "m3"] true "m2" []).
  - exact NoDup_m123.
  - simpl; tauto.
  - intros h'. eexists. apply failing_on_bad.
  - intros h' id _ Hne. eexists. now apply failing_on_others.
Defined.

(** C3, counterexample: the service throttles only the first request on
    each id, so a second attempt on "m1" would be executed, and the
    configured [max_retries] is 3; yet each id is requested once and
    recorded as failed. *)
Lemma transient_failure_not_retried :
  max_retries (safety (config (default_client throttled_once))) = 3%Z
  /\ throttled_once [MessagesTrash "m1"] (MessagesTrash "m1") = Returned "m1"
  /\ delete_messages_batch (default_client throttled_once)
       ["m1"; "m2"] false []
     = (Returned {| success := []; failed := ["m1"; "m2"] |},
        [MessagesTrash "m1"; MessagesTrash "m2"])
  /\ calls_on "m1" [MessagesTrash "m1"; MessagesTrash "m2"] = 1%nat.
Proof. repeat split. Qed.

Lemma delete_messages_batch_no_retry_witness :
  (forall h' id, In id ["m1"; "m2"; "m3"] ->
     http_reply (service (default_client throttled_once) h'
                   (mutation false id)))
  /\ service (default_client throttled_once)
       ([] ++ map (mutation false) ["m1"])%list (mutation false "m2")
     = Raised (HttpError "429 rateLimitExceeded")
  /\ max_retries (safety (config (default_client throttled_once))) = 3%Z
  /\ exists r,
       delete_messages_batch (default_client throttled_once)
         ["m1"; "m2"; "m3"] false []
       = (Returned r, ([] ++ map (mutation false) ["m1"; "m2"; "m3"])%list)
       /\ calls_on "m2" (map (mutation false) ["m1"; "m2"; "m3"])
          = count_occ string_dec ["m1"; "m2"; "m3"] "m2"
       /\ In "m2" (failed r)
       /\ (forall y, In y ["m3"] -> In y (success r) \/ In y (failed r)).
Proof.
  split; [intros; apply throttled_once_http|]. split; [reflexivity|].
  split; [reflexivity|].
  apply (delete_messages_batch_no_retry
           (default_client throttled_once) ["m1"] "m2" ["m3"] false []
           "429 rateLimitExceeded").
  - intros; apply throttled_once_http.
  - reflexivity.
Defined.

(** C4, counterexample: the fetch of "m2" fails and those of "m1" and "m3"
    would succeed; the retrieval raises, the message of "m1" is lost and
    "m3" is not fetched. *)
Lemma one_failed_fetch_aborts_retrieval :
  (forall h id, id <> "m2" ->
     failing_on "m2" (HttpError "404 Not Found") h (MessagesGet id "full")
     = Returned id)
  /\ get_messages_batch
       (default_client (failing_on "m2" (HttpError "404 Not Found")))
       ["m1"; "m2"; "m3"] "full" []
     = (Raised (GmailAPIError
          "Batch message retrieval failed: Failed to get message m2: 404 Not Found"),
        [MessagesGet "m1" "full"; MessagesGet "m2" "full"]).
Proof.
  split; [|reflexivity].
  intros h id Hne. unfold failing_on. cbn [request_id].
  destruct (String.eqb_spec id "m2"); [contradiction | reflexivity].
Qed.

Lemma get_messages_batch_aborts_on_failure_witness :
  (forall h' id, In id ["m1"] ->
     exists m,
       service (default_client (failing_on "m2" (HttpError "404 Not Found")))
               h' (MessagesGet id "full") = Returned m)
  /\ service (default_client (failing_on "m2" (HttpError "404 Not Found")))
       ([] ++ map (fun id => MessagesGet id "full") ["m1"])%list
       (MessagesGet "m2" "full")
     = Raised (HttpError "404 Not Found")
  /\ get_messages_batch
       (default_client (failing_on "m2" (HttpError "404 Not Found")))
       ["m1"; "m2"; "m3"] "full" []
     = (Raised (GmailAPIError
          "Batch message retrieval failed: Failed to get message m2: 404 Not Found"),
        [MessagesGet "m1" "full"; MessagesGet "m2" "full"]).
Proof.
  assert (Hok : forall (h' : list request) id, In id ["m1"] ->
            exists m,
              service
                (default_client (failing_on "m2" (HttpError "404 Not Found")))
                h' (MessagesGet id "full") = Returned m).
  { intros h' id [<-|[]]. eexists. reflexivity. }
  split; [exact Hok|]. split; [reflexivity|].
  apply (get_messages_batch_aborts_on_failure
           (default_client (failing_on "m2" (HttpError "404 Not Found")))
           ["m1"] "m2" ["m3"] "full" [] (HttpError "404 Not Found") Hok).
  reflexivity.
Defined.

End ClientProps.

(** ** The filter engine *)

Module FilterProps.

Import EmailFilter.

Lemma mem_In x l : mem x l = true <-> In x l.
Proof.
  unfold mem. rewrite existsb_exists. split.
  - intros [y [Hy Heq]]. apply String.eqb_eq in Heq. now subst.
  - intros Hin. exists x. split; [assumption | apply String.eqb_refl].
Qed.


(** The case analysis of the time filter on an email with a date. *)
Ltac time_cases :=
  cbv beta iota zeta;
  repeat (first
    [ match goal with
      | |- context [truthy_int ?n] => destruct (truthy_int n) eqn:?
      end
    | match goal with
      | |- context [minus_days ?a ?n] =>
          destruct (minus_days a n) as [?cutoff|?e] eqn:?
      end
    | match goal with
      | |- context [dt_gt ?a ?b] => destruct (dt_gt a b) eqn:?
      end
    | match goal with
      | |- context [dt_lt ?a ?b] => destruct (dt_lt a b) eqn:?
      end
    | match goal with
      | |- context [newer_than_days ?c] =>
          destruct (newer_than_days c) as [?M|] eqn:?
      end ];
    cbv beta iota zeta).

Section Stages.

Variable rt : runtime.
Variable now_clock : clock.
Variable self : EmailFilter.

(** *** What each stage can answer *)

Lemma _check_exclusions_rejects md r :
  _check_exclusions rt self md = Some r ->
  should_process r = false /\ filter_type r = "exclusion"
  /\ confidence r = 1.0%float.
Proof.
  unfold _check_exclusions.
  repeat match goal with
    | |- context [find ?f ?l] => destruct (find f l)
    end; intros [= <-]; repeat split.
Qed.

Lemma _check_time_filters_rejects md r :
  _check_time_filters now_clock self md = Returned (Some r) ->
  should_process r = false /\ filter_type r = "time".
Proof.
  unfold _check_time_filters.
  destruct (md_date md) as [d|]; [|intros [= <-]; now split].
  time_cases; intros H; try discriminate H; injection H as <-; now split.
Qed.


Lemma _check_size_filters_rejects md r :
  _check_size_filters rt self md = Returned (Some r) ->
  should_process r = false /\ filter_type r = "size"
  /\ confidence r = 0.8%float.
Proof.
  unfold _check_size_filters.
  destruct (size_in_mb _) as [size_mb|e]; [|discriminate].
  destruct (min_size_mb (config self)) as [lo|];
    [destruct (truthy_float lo && _); [intros [= <-]; repeat split|]|];
    (destruct (max_size_mb (config self)) as [hi|]; [|discriminate];
     destruct (truthy_float hi && _); [|discriminate];
     intros [= <-]; repeat split).
Qed.




Lemma _check_sender_filters_rejects md r :
  _check_sender_filters rt self md = Some r ->
  should_process r = false /\ filter_type r = "sender"
  /\ confidence r = 0.9%float.
Proof.
  unfold _check_sender_filters.
  destruct (truthy_list _); [|discriminate].
  destruct (negb _); [|discriminate]. intros [= <-]. repeat split.
Qed.

Lemma _check_content_filters_rejects md r :
  _check_content_filters self md = Some r ->
  should_process r = false /\ filter_type r = "content"
  /\ confidence r = 0.8%float.
Proof.
  unfold _check_content_filters.
  destruct (truthy_list _); [|discriminate].
  destruct (negb _); [|discriminate]. intros [= <-]. repeat split.
Qed.

(** The first filter that excludes the email decides; the later ones are
    not consulted, and an exception of a filter is the one of the
    pipeline. *)
Lemma should_process_email_first_rejection md :
  should_process_email rt now_clock self md
  = match _check_exclusions rt self md with
    | Some r => Returned r
    | None =>
    match _check_time_filters now_clock self md with
    | Raised e => Raised e
    | Returned (Some r) => Returned r
    | Returned None =>
    match _check_size_filters rt self md with
    | Raised e => Raised e
    | Returned (Some r) => Returned r
    | Returned None =>
    match _check_sender_filters rt self md with
    | Some r => Returned r
    | None =>
    match _check_content_filters self md with
    | Some r => Returned r
    | None => Returned passed_all_filters
    end end end end end.
Proof.
  unfold should_process_email. cbn [first_excluding]. unfold total.
  destruct (_check_exclusions rt self md) as [r|] eqn:E1.
  { apply _check_exclusions_rejects in E1 as [-> _]. reflexivity. }
  destruct (_check_time_filters now_clock self md) as [[r|]|e] eqn:E2;
    [| |reflexivity].
  { apply _check_time_filters_rejects in E2 as [-> _]. reflexivity. }
  destruct (_check_size_filters rt self md) as [[r|]|e] eqn:E3;
    [| |reflexivity].
  { apply _check_size_filters_rejects in E3 as [-> _]. reflexivity. }
  destruct (_check_sender_filters rt self md) as [r|] eqn:E4.
  { apply _check_sender_filters_rejects in E4 as [-> _]. reflexivity. }
  destruct (_check_content_filters self md) as [r|] eqn:E5.
  { apply _check_content_filters_rejects in E5 as [-> _]. reflexivity. }
  reflexivity.
Qed.

(** *** Excluded labels *)

(** C6: an email that carries a label of the configured exclude-label list
    is rejected by the exclusion filter, with confidence 1.0, whatever its
    other fields and whatever the other configured filters are: the
    exclusion filter runs first and its rejection is returned at once. *)
Theorem excluded_label_rejects md labels label :
  md_label_ids md = Some labels ->
  In label labels ->
  In label (exclude_labels (config self)) ->
  exists r,
    should_process_email rt now_clock self md = Returned r
    /\ should_process r = false
    /\ filter_type r = "exclusion"
    /\ confidence r = 1.0%float
    /\ _check_exclusions rt self md = Some r.
Proof.
  intros Hlabels Hin Hexcl.
  rewrite should_process_email_first_rejection.
  destruct (_check_exclusions rt self md) as [r|] eqn:E.
  - destruct (_check_exclusions_rejects md r E) as [H1 [H2 H3]].
    exists r. auto.
  - exfalso. unfold _check_exclusions in E. rewrite Hlabels in E.
    cbn [get] in E.
    destruct (find (fun exclude_label => mem exclude_label labels)
                   (exclude_labels (config self))) as [l|] eqn:F;
      [discriminate|].
    pose proof (find_none _ _ F label Hexcl) as Hmem. cbn beta in Hmem.
    apply mem_In in Hin. congruence.
Qed.

(** *** Emails without a date *)

(** C7 (as the code has it): an email without a date is never accepted and
    evaluation returns a decision for it. Unless the exclusion filter
    rejects it first (with its own reason, confidence 1.0), the decision is
    the one of the time filter: rejected, filter "time", confidence 0.5,
    reason "Unable to parse email date". *)
Theorem undated_email_rejected md :
  md_date md = None ->
  exists r,
    should_process_email rt now_clock self md = Returned r
    /\ should_process r = false
    /\ (_check_exclusions rt self md = None -> r = date_parse_error)
    /\ (forall r', _check_exclusions rt self md = Some r' ->
        r = r' /\ filter_type r' = "exclusion"
        /\ confidence r' = 1.0%float).
Proof.
  intros Hdate.
  assert (Htime : _check_time_filters now_clock self md
                  = Returned (Some date_parse_error)).
  { unfold _check_time_filters. now rewrite Hdate. }
  rewrite should_process_email_first_rejection, Htime.
  destruct (_check_exclusions rt self md) as [r|] eqn:E.
  - destruct (_check_exclusions_rejects md r E) as [H1 [H2 H3]].
    exists r. split; [reflexivity|]. split; [assumption|].
    split; [discriminate|]. intros r' [= <-]. auto.
  - exists date_parse_error. split; [reflexivity|]. split; [reflexivity|].
    split; [reflexivity | discriminate].
Qed.

(** *** The older-than boundary *)

(** A cutoff date that can be represented is the given number of days
    before the current time. *)
Lemma minus_days_returns d n c :
  minus_days d n = Returned c ->
  instant c = (instant d - n * microseconds_per_day)%Z
  /\ wall c = (wall d - n * microseconds_per_day)%Z.
Proof.
  unfold minus_days, timedelta_days, datetime_sub.
  destruct (Z.abs n <=? 999999999)%Z; [|discriminate].
  destruct ((min_wall <=? _)%Z && _); [|discriminate].
  intros [= <-]. unfold instant. cbn [wall tzinfo].
  destruct (tzinfo d); split; lia.
Qed.


Lemma microseconds_per_day_pos : (0 < microseconds_per_day)%Z.
Proof. reflexivity. Qed.




(** *** Missing keys and exceptions *)




End Stages.

(** *** The query builder *)

Lemma prefix_append_r p : forall a b,
  prefix p a = true -> prefix p (a ++ b) = true.
Proof.
  induction p as [|c p IH]; intros a b H; [now destruct (a ++ b)|].
  destruct a as [|d a]; [discriminate|]. cbn [append prefix] in *.
  destruct (ascii_dec c d); [now apply IH | discriminate].
Qed.

Lemma prefix_refl p : prefix p p = true.
Proof.
  induction p as [|c p IH]; [reflexivity|]. cbn [prefix].
  destruct (ascii_dec c c); [assumption | contradiction].
Qed.

Lemma contains_refl p : contains p p = true.
Proof. destruct p; cbn [contains]; now rewrite prefix_refl. Qed.

Lemma contains_append_r p : forall a b,
  contains p a = true -> contains p (a ++ b) = true.
Proof.
  induction a as [|d a IH]; intros b H.
  - cbn [contains] in H. rewrite orb_false_r in H.
    destruct p; [|discriminate]. destruct b; reflexivity.
  - cbn [append contains] in *. apply orb_true_iff in H as [H|H].
    + change (String d (a ++ b)) with (String d a ++ b).
      now rewrite (prefix_append_r p _ b H).
    + rewrite (IH b H). apply orb_true_r.
Qed.

Lemma contains_append_l p a : forall b,
  contains p b = true -> contains p (a ++ b) = true.
Proof.
  induction a as [|d a IH]; intros b H; [assumption|].
  cbn [append contains]. rewrite (IH b H). apply orb_true_r.
Qed.

(** A clause of the query is found in the joined query string. *)
Lemma contains_concat sep p x l :
  In x l -> contains p x = true -> contains p (String.concat sep l) = true.
Proof.
  intros Hin Hp. induction l as [|y l IH]; [contradiction|].
  destruct l as [|z l].
  - destruct Hin as [->|[]]. assumption.
  - change (String.concat sep (y :: z :: l))
      with (y ++ sep ++ String.concat sep (z :: l)).
    destruct Hin as [->|Hin].
    + now apply contains_append_r.
    + apply contains_append_l, contains_append_l. now apply IH.
Qed.

(** C9: the query is a function of the configuration alone. Whenever
    [older_than_days] is a non-zero [N] and a label is in the exclude-label
    list (and no size bound is set) the query contains the clauses
    [older_than:Nd] and [-label:<label>]; for the configuration
    [{older_than_days: 30, exclude_labels: [SENT]}] with all other lists
    empty it is "older_than:30d -label:SENT", which contains both
    [older_than:30d] and [-label:SENT]. *)
Theorem build_gmail_query_clauses self :
  (forall self', config self' = config self ->
     build_gmail_query self' = build_gmail_query self)
  /\ (forall N label,
        older_than_days (config self) = N -> N <> 0%Z ->
        In label (exclude_labels (config self)) ->
        min_size_mb (config self) = None ->
        max_size_mb (config self) = None ->
        exists q,
          build_gmail_query self = Returned q
          /\ contains ("older_than:" ++ str_int N ++ "d") q = true
          /\ contains ("-label:" ++ label) q = true)
  /\ (config self = sent_30_config ->
      build_gmail_query self = Returned "older_than:30d -label:SENT"
      /\ contains "older_than:30d" "older_than:30d -label:SENT" = true
      /\ contains "-label:SENT" "older_than:30d -label:SENT" = true).
Proof.
  split; [|split].
  - intros self' Hcfg. unfold build_gmail_query. now rewrite Hcfg.
  - intros N label HN HN0 Hlabel Hmin Hmax.
    unfold build_gmail_query. rewrite Hmin, Hmax, HN. cbn [size_clause].
    assert (Htruthy : truthy_int N = true).
    { unfold truthy_int. now destruct (Z.eqb_spec N 0). }
    rewrite Htruthy. eexists. split; [reflexivity|]. split.
    + apply contains_concat with (x := "older_than:" ++ str_int N ++ "d").
      * now left.
      * apply contains_refl.
    + apply contains_concat with (x := "-label:" ++ label).
      * apply in_or_app. right. apply in_or_app. right.
        apply in_or_app. right. apply in_or_app. right.
        apply in_or_app. left.
        apply (in_map (fun l => "-label:" ++ l) _ _ Hlabel).
      * apply contains_refl.
  - intros Hcfg. unfold build_gmail_query. rewrite Hcfg.
    repeat split; reflexivity.
Qed.

(** *** Categories *)

(** C8 (as the code has it): for the subject "Special Offer - 50% Off!" the
    promotional score is exactly 0.4, from the two keywords "offer" and
    "%", whatever the sender and the configuration; the score is not above
    the threshold 0.4, which is strict, so [is_promotional] is false. *)
Theorem special_offer_scores rt self md :
  md_subject md = Some "Special Offer - 50% Off!" ->
  exists score,
    score_of "promotional" (confidence_scores (categorize_email rt self md))
    = Some score
    /\ score = 0.4%float
    /\ (0.4 <=? score)%float = true
    /\ (0.4 <? score)%float = false
    /\ is_promotional (categorize_email rt self md) = false.
Proof.
  intros Hsubject. exists 0.4%float. unfold categorize_email.
  rewrite Hsubject. cbn [confidence_scores is_promotional get].
  rewrite (str_lower_ascii rt "Special Offer - 50% Off!" eq_refl).
  repeat split; reflexivity.
Qed.

(** *** Concrete emails *)

Lemma excluded_label_rejects_witness :
  md_label_ids (meeting_email (Some (days_ago 10)))
  = Some ["INBOX"; "IMPORTANT"]
  /\ In "IMPORTANT" ["INBOX"; "IMPORTANT"]
  /\ In "IMPORTANT" (exclude_labels (config default_filter))
  /\ exists r,
       should_process_email bare_address_runtime example_clock default_filter
         (meeting_email (Some (days_ago 10))) = Returned r
       /\ should_process r = false
       /\ filter_type r = "exclusion"
       /\ confidence r = 1.0%float
       /\ _check_exclusions bare_address_runtime default_filter
            (meeting_email (Some (days_ago 10))) = Some r.
Proof.
  split; [reflexivity|]. split; [simpl; tauto|]. split; [simpl; tauto|].
  apply (excluded_label_rejects bare_address_runtime example_clock
           default_filter (meeting_email (Some (days_ago 10)))
           ["INBOX"; "IMPORTANT"] "IMPORTANT").
  - reflexivity.
  - simpl; tauto.
  - simpl; tauto.
Defined.

(** C7, counterexample: an email without a date that carries the excluded
    label IMPORTANT is rejected by the exclusion filter with confidence 1.0,
    not by the time filter with confidence 0.5; and where the time filter
    does decide, its reason reads "Unable to parse email date". *)
Lemma undated_excluded_email :
  md_date (meeting_email None) = None
  /\ should_process_email bare_address_runtime example_clock default_filter
       (meeting_email None)
     = Returned
         {| should_process := false;
            reason := "Has excluded label: IMPORTANT";
            confidence := 1.0;
            filter_type := "exclusion";
            metadata := [("excluded_label", VStr "IMPORTANT")] |}
  /\ should_process_email bare_address_runtime example_clock default_filter
       (meeting_email None) <> Returned date_parse_error
  /\ should_process_email bare_address_runtime example_clock default_filter
       (bare_email None) = Returned date_parse_error
  /\ reason date_parse_error <> "unparseable date".
Proof. repeat split; discriminate. Qed.

Lemma undated_email_rejected_witness :
  md_date (bare_email None) = None
  /\ exists r,
       should_process_email bare_address_runtime example_clock default_filter
         (bare_email None) = Returned r
       /\ should_process r = false
       /\ (_check_exclusions bare_address_runtime default_filter
             (bare_email None) = None ->
           r = date_parse_error)
       /\ (forall r',
             _check_exclusions bare_address_runtime default_filter
               (bare_email None) = Some r' ->
             r = r' /\ filter_type r' = "exclusion"
             /\ confidence r' = 1.0%float).
Proof.
  split; [reflexivity|].
  apply (undated_email_rejected bare_address_runtime example_clock
           default_filter (bare_email None)).
  reflexivity.
Defined.




(** C8, counterexample: the email of the scenario scores exactly 0.4 and
    is not promotional. *)
Lemma special_offer_not_promotional :
  md_subject offer_email = Some "Special Offer - 50% Off!"
  /\ md_from offer_email = Some "sales@retailer.com"
  /\ score_of "promotional"
       (confidence_scores
          (categorize_email bare_address_runtime default_filter offer_email))
     = Some 0.4%float
  /\ is_promotional
       (categorize_email bare_address_runtime default_filter offer_email)
     = false
  /\ is_promotional
       (categorize_email bare_address_runtime default_filter offer_email)
     <> true.
Proof. repeat split. discriminate. Qed.

Lemma special_offer_scores_witness :
  md_subject offer_email = Some "Special Offer - 50% Off!"
  /\ exists score,
       score_of "promotional"
         (confidence_scores
            (categorize_email bare_address_runtime default_filter offer_email))
       = Some score
       /\ score = 0.4%float
       /\ (0.4 <=? score)%float = true
       /\ (0.4 <? score)%float = false
       /\ is_promotional
            (categorize_email bare_address_runtime default_filter offer_email)
          = false.
Proof.
  split; [reflexivity|].
  apply (special_offer_scores bare_address_runtime default_filter offer_email).
  reflexivity.
Defined.

Lemma build_gmail_query_clauses_witness :
  config (new_EmailFilter sent_30_config) = sent_30_config
  /\ older_than_days sent_30_config = 30%Z
  /\ In "SENT" (exclude_labels sent_30_config)
  /\ build_gmail_query (new_EmailFilter sent_30_config)
     = Returned "older_than:30d -label:SENT"
  /\ contains "older_than:30d" "older_than:30d -label:SENT" = true
  /\ contains "-label:SENT" "older_than:30d -label:SENT" = true.
Proof.
  split; [reflexivity|]. split; [reflexivity|]. split; [simpl; tauto|].
  destruct (build_gmail_query_clauses (new_EmailFilter sent_30_config))
    as [_ [_ Hscenario]].
  apply Hscenario. reflexivity.
Defined.

End FilterProps.

(** ** Further properties of the batch operations *)

Module ClientMore.

Import GmailClient ClientProps.

Lemma In_firstn {A} (x : A) k : forall l, In x (firstn k l) -> In x l.
Proof.
  induction k as [|k IH]; intros [|a l] Hin; cbn in *; try contradiction.
  destruct Hin as [->|Hin]; [now left | right; now apply IH].
Qed.

Section Client.

Context {message : Type}.
Variable self : GmailClient message.

(** *** Requests issued by the deletion batch *)

Lemma delete_loop_requests permanent ids : forall acc h,
  exists k,
    (k <= length ids)%nat
    /\ snd (for_each ids (delete_into self permanent) acc h)
       = (h ++ map (mutation permanent) (firstn k ids))%list
    /\ (forall r, fst (for_each ids (delete_into self permanent) acc h)
                  = Returned r -> k = length ids).
Proof.
  induction ids as [|id ids IH]; intros [s f] h.
  - exists 0%nat. cbn. now rewrite app_nil_r.
  - cbn [for_each]. unfold bind. rewrite delete_into_run.
    destruct (service self h (mutation permanent id)) as [m|e].
    + destruct (IH ((s ++ [id])%list, f) (h ++ [mutation permanent id])%list)
        as [k [Hk [Htr Hret]]].
      exists (S k). cbn [length firstn map]. rewrite Htr, <- app_assoc.
      split; [lia|]. split; [reflexivity|].
      intros r Hr. now rewrite (Hret r Hr).
    + assert (Hfailed :
        exists k,
          (k <= length (id :: ids))%nat
          /\ snd (for_each ids (delete_into self permanent)
                    (s, (f ++ [id])%list) (h ++ [mutation permanent id])%list)
             = (h ++ map (mutation permanent) (firstn k (id :: ids)))%list
          /\ (forall r,
                fst (for_each ids (delete_into self permanent)
                       (s, (f ++ [id])%list)
                       (h ++ [mutation permanent id])%list) = Returned r ->
                k = length (id :: ids))).
      { destruct (IH (s, (f ++ [id])%list) (h ++ [mutation permanent id])%list)
          as [k [Hk [Htr Hret]]].
        exists (S k). cbn [length firstn map]. rewrite Htr, <- app_assoc.
        split; [lia|]. split; [reflexivity|].
        intros r Hr. now rewrite (Hret r Hr). }
      destruct e; try exact Hfailed.
      all: exists 1%nat; cbn [length firstn map fst snd];
        (split; [lia|]); (split; [reflexivity | discriminate]).
Qed.

(** X1: whatever the service answers, the requests [delete_messages_batch]
    adds to the history are the mutations of a prefix of the id list, one
    per id and in list order: the earlier history is kept, nothing but trash
    requests are issued when [permanent] is false (and nothing but delete
    requests when it is true), and when the batch returns the prefix is the
    whole list. *)
Theorem delete_messages_batch_requests ids permanent h :
  exists k,
    (k <= length ids)%nat
    /\ snd (delete_messages_batch self ids permanent h)
       = (h ++ map (mutation permanent) (firstn k ids))%list
    /\ (forall r, fst (delete_messages_batch self ids permanent h)
                  = Returned r -> k = length ids)
    /\ (forall rq, In rq (snd (delete_messages_batch self ids permanent h)) ->
          In rq h
          \/ exists id, In id ids
               /\ rq = if permanent then MessagesDelete id
                       else MessagesTrash id).
Proof.
  assert (Hmain : exists k,
    (k <= length ids)%nat
    /\ snd (delete_messages_batch self ids permanent h)
       = (h ++ map (mutation permanent) (firstn k ids))%list
    /\ (forall r, fst (delete_messages_batch self ids permanent h)
                  = Returned r -> k = length ids)).
  { unfold delete_messages_batch. destruct ids as [|id ids].
    - exists 0%nat. cbn. now rewrite app_nil_r.
    - cbn [truthy_list negb].
      destruct (delete_loop_requests permanent (id :: ids) ([], []) h)
        as [k [Hk [Htr Hret]]].
      exists k. unfold bind.
      destruct (for_each (id :: ids) (delete_into self permanent) ([], []) h)
        as [[lists|e] h'] eqn:E; cbn [fst snd] in *.
      + split; [assumption|]. split; [assumption|].
        intros r _. now apply (Hret lists).
      + split; [assumption|]. split; [assumption | discriminate]. }
  destruct Hmain as [k [Hk [Htr Hret]]]. exists k.
  split; [assumption|]. split; [assumption|]. split; [assumption|].
  intros rq Hin. rewrite Htr in Hin. apply in_app_or in Hin as [Hin|Hin].
  - now left.
  - right. apply in_map_iff in Hin as [id [<- Hid]].
    exists id. split; [|reflexivity].
    now apply (In_firstn id k ids).
Qed.

(** *** Accounting of the ids *)

Lemma delete_loop_accounting permanent ids : forall s f h s' f',
  fst (for_each ids (delete_into self permanent) (s, f) h)
  = Returned (s', f') ->
  exists ds df,
    s' = (s ++ ds)%list /\ f' = (f ++ df)%list
    /\ (forall id, count_occ string_dec ids id
                   = (count_occ string_dec ds id
                      + count_occ string_dec df id)%nat).
Proof.
  induction ids as [|id ids IH]; intros s f h s' f'.
  - cbn. intros [= <- <-]. exists [], []. now rewrite !app_nil_r.
  - cbn [for_each]. unfold bind. rewrite delete_into_run.
    destruct (service self h (mutation permanent id)) as [m|e].
    + intros Hrun. destruct (IH _ _ _ _ _ Hrun) as [ds [df [-> [-> Hcount]]]].
      exists (id :: ds), df. rewrite <- !app_assoc.
      repeat split; try reflexivity.
      intros i. cbn [count_occ]. rewrite Hcount.
      destruct (string_dec id i); lia.
    + assert (Hfailed :
        fst (for_each ids (delete_into self permanent)
               (s, (f ++ [id])%list) (h ++ [mutation permanent id])%list)
        = Returned (s', f') ->
        exists ds df,
          s' = (s ++ ds)%list /\ f' = (f ++ df)%list
          /\ (forall i, count_occ string_dec (id :: ids) i
                        = (count_occ string_dec ds i
                           + count_occ string_dec df i)%nat)).
      { intros Hrun.
        destruct (IH _ _ _ _ _ Hrun) as [ds [df [-> [-> Hcount]]]].
        exists ds, (id :: df). rewrite <- !app_assoc.
        repeat split; try reflexivity.
        intros i. cbn [count_occ]. rewrite Hcount.
        destruct (string_dec id i); lia. }
      destruct e; try exact Hfailed; discriminate.
Qed.

Lemma count_occ_length_eq (l l1 l2 : list string) :
  (forall x, count_occ string_dec l x
             = (count_occ string_dec l1 x + count_occ string_dec l2 x)%nat) ->
  length l = (length l1 + length l2)%nat.
Proof.
  revert l1 l2. induction l as [|a l IH]; intros l1 l2 H.
  - destruct l1 as [|b l1]; [destruct l2 as [|b l2]; [reflexivity|]|];
      specialize (H b); cbn in H; destruct (string_dec b b); try lia;
      contradiction.
  - assert (Hin : In a (l1 ++ l2)%list).
    { apply (count_occ_In string_dec). rewrite count_occ_app, <- H.
      cbn. destruct (string_dec a a); [lia | contradiction]. }
    apply in_app_or in Hin as [Hin|Hin];
      apply in_split in Hin as [u [v ->]].
    + rewrite length_app. cbn [length].
      rewrite (IH (u ++ v)%list l2); [rewrite length_app; lia|].
      intros x. specialize (H x). rewrite !count_occ_app in *.
      cbn [count_occ] in H. destruct (string_dec a x); lia.
    + rewrite length_app. cbn [length].
      rewrite (IH l1 (u ++ v)%list); [rewrite length_app; lia|].
      intros x. specialize (H x). rewrite !count_occ_app in *.
      cbn [count_occ] in H. destruct (string_dec a x); lia.
Qed.

(** X2: whenever [delete_messages_batch] returns, whatever failed, every
    id of the list is accounted for exactly once: it occurs in the success
    and failed lists together as often as in the id list, so the two lists
    hold as many ids as were given and contain no id that was not given. *)
Theorem delete_messages_batch_accounting ids permanent h r :
  fst (delete_messages_batch self ids permanent h) = Returned r ->
  (forall id, count_occ string_dec ids id
              = (count_occ string_dec (success r) id
                 + count_occ string_dec (failed r) id)%nat)
  /\ (length (success r) + length (failed r))%nat = length ids
  /\ (forall id, In id ids <-> In id (success r) \/ In id (failed r)).
Proof.
  intros Hrun.
  assert (Hcount : forall id, count_occ string_dec ids id
              = (count_occ string_dec (success r) id
                 + count_occ string_dec (failed r) id)%nat).
  { unfold delete_messages_batch in Hrun. destruct ids as [|id0 ids].
    - cbn in Hrun. injection Hrun as <-. reflexivity.
    - cbn [truthy_list negb] in Hrun. unfold bind in Hrun.
      destruct (for_each (id0 :: ids) (delete_into self permanent) ([], []) h)
        as [[[s' f']|e] h'] eqn:E; [|discriminate].
      cbn in Hrun. injection Hrun as <-. cbn [success failed].
      destruct (delete_loop_accounting permanent (id0 :: ids) [] [] h s' f')
        as [ds [df [-> [-> Hc]]]]; [now rewrite E|].
      exact Hc. }
  split; [exact Hcount|]. split.
  - symmetry. now apply count_occ_length_eq.
  - intros id. rewrite (count_occ_In string_dec ids id), Hcount.
    rewrite (count_occ_In string_dec (success r) id),
            (count_occ_In string_dec (failed r) id). lia.
Qed.

(** *** Batch retrieval *)

Lemma fetch_loop_requests format ids : forall acc h,
  exists k,
    (k <= length ids)%nat
    /\ snd (for_each ids (fetch_into self format) acc h)
       = (h ++ map (fun id => MessagesGet id format) (firstn k ids))%list.
Proof.
  induction ids as [|id ids IH]; intros acc h.
  - exists 0%nat. cbn. now rewrite app_nil_r.
  - cbn [for_each]. unfold bind. rewrite fetch_into_run, get_message_run.
    destruct (service self h (MessagesGet id format)) as [m|e].
    + destruct (IH (acc ++ [m])%list (h ++ [MessagesGet id format])%list)
        as [k [Hk Htr]].
      exists (S k). cbn [length firstn map]. rewrite Htr, <- app_assoc.
      split; [lia | reflexivity].
    + exists 1%nat. cbn [length firstn map].
      split; [lia | destruct e; reflexivity].
Qed.

(** X3: [get_messages_batch] only reads: whatever the service answers, the
    requests it adds to the history are get requests for a prefix of the id
    list, one per id and in list order, in the given format; it never issues
    a trash or delete request and keeps the earlier history. *)
Theorem get_messages_batch_requests ids format h :
  exists k,
    (k <= length ids)%nat
    /\ snd (get_messages_batch self ids format h)
       = (h ++ map (fun id => MessagesGet id format) (firstn k ids))%list.
Proof.
  rewrite get_messages_batch_flat.
  destruct (fetch_loop_requests format ids [] h) as [k [Hk Htr]].
  exists k. split; [assumption|].
  destruct (for_each ids (fetch_into self format) [] h) as [[ms|e] h'];
    exact Htr.
Qed.

(** X4: when the service answers the get request of every listed id with
    that id's message, [get_messages_batch] returns the messages of all ids
    in list order, for a list of any length: the batches of 100 do not show
    in the result, and one request per id is issued, in order. *)
Theorem get_messages_batch_in_order (content : string -> message) ids format h :
  (forall h' id, In id ids ->
     service self h' (MessagesGet id format) = Returned (content id)) ->
  get_messages_batch self ids format h
  = (Returned (map content ids),
     (h ++ map (fun id => MessagesGet id format) ids)%list).
Proof.
  intros Hok. rewrite get_messages_batch_flat.
  assert (Hloop : forall l acc h0,
            (forall id, In id l -> In id ids) ->
            for_each l (fetch_into self format) acc h0
            = (Returned (acc ++ map content l)%list,
               (h0 ++ map (fun id => MessagesGet id format) l)%list)).
  { induction l as [|id l IH]; intros acc h0 Hsub.
    - cbn. unfold ret. now rewrite !app_nil_r.
    - cbn [for_each]. unfold bind. rewrite fetch_into_run, get_message_run.
      rewrite (Hok h0 id) by (apply Hsub; now left).
      rewrite IH by (intros; apply Hsub; now right).
      cbn [map]. now rewrite <- !app_assoc. }
  rewrite (Hloop ids [] h (fun id H => H)). reflexivity.
Qed.

End Client.

Lemma delete_messages_batch_requests_witness :
  delete_messages_batch
    (default_client (failing_on "m2" (Exception "timed out")))
    ["m1"; "m2"; "m3"] false [MessagesGet "m0" "full"]
  = (Raised (Exception "timed out"),
     [MessagesGet "m0" "full"; MessagesTrash "m1"; MessagesTrash "m2"])
  /\ exists k,
       (k <= 3)%nat
       /\ [MessagesGet "m0" "full"; MessagesTrash "m1"; MessagesTrash "m2"]
          = ([MessagesGet "m0" "full"]
             ++ map (mutation false) (firstn k ["m1"; "m2"; "m3"]))%list.
Proof.
  split; [reflexivity|].
  destruct (delete_messages_batch_requests
              (default_client (failing_on "m2" (Exception "timed out")))
              ["m1"; "m2"; "m3"] false [MessagesGet "m0" "full"])
    as [k [Hk [Htrace _]]].
  exists k. split; [exact Hk | exact Htrace].
Defined.

Lemma delete_messages_batch_accounting_witness :
  fst (delete_messages_batch (default_client throttled_once)
         ["m1"; "m2"; "m1"] false [])
  = Returned {| success := ["m1"]; failed := ["m1"; "m2"] |}
  /\ (length ["m1"] + length ["m1"; "m2"])%nat = length ["m1"; "m2"; "m1"]
  /\ (forall id, In id ["m1"; "m2"; "m1"]
                 <-> In id ["m1"] \/ In id ["m1"; "m2"]).
Proof.
  split; [reflexivity|].
  destruct (delete_messages_batch_accounting (default_client throttled_once)
              ["m1"; "m2"; "m1"] false []
              {| success := ["m1"]; failed := ["m1"; "m2"] |} eq_refl)
    as [_ H].
  exact H.
Defined.

Lemma get_messages_batch_in_order_witness :
  (forall (h' : list request) id, In id ["m1"; "m2"] ->
     service (default_client always_ok) h' (MessagesGet id "metadata")
     = Returned id)
  /\ get_messages_batch (default_client always_ok) ["m1"; "m2"] "metadata" []
     = (Returned ["m1"; "m2"],
        [MessagesGet "m1" "metadata"; MessagesGet "m2" "metadata"]).
Proof.
  assert (Hok : forall (h' : list request) id, In id ["m1"; "m2"] ->
            service (default_client always_ok) h' (MessagesGet id "metadata")
            = Returned id) by reflexivity.
  split; [exact Hok|].
  exact (get_messages_batch_in_order (default_client always_ok)
           (fun id => id) ["m1"; "m2"] "metadata" [] Hok).
Defined.

End ClientMore.

(** ** Further properties of the filter engine *)

Module FilterMore.

Import EmailFilter FilterProps.

Lemma find_none_iff {A} (f : A -> bool) (l : list A) :
  find f l = None <-> forall x, In x l -> f x = false.
Proof.
  split; [apply find_none|].
  induction l as [|a l IH]; intros H; [reflexivity|]. cbn.
  rewrite (H a (or_introl eq_refl)). apply IH.
  intros x Hx. apply H. now right.
Qed.

Lemma mem_false x l : mem x l = false <-> ~ In x l.
Proof.
  rewrite <- mem_In. destruct (mem x l); split; intros H;
    try reflexivity; try discriminate; try congruence.
  all: try (exfalso; now apply H).
Qed.

Section Stages.

Variable rt : runtime.
Variable now_clock : clock.
Variable self : EmailFilter.

(** *** When each filter lets an email through *)

Lemma _check_exclusions_passes md :
  _check_exclusions rt self md = None
  <-> (forall l, In l (exclude_labels (config self)) ->
         ~ In l (get (md_label_ids md) []))
      /\ (forall f, In f (exclude_folders (config self)) ->
            ~ In f (get (md_label_ids md) []))
      /\ (forall s, In s (exclude_senders (config self)) ->
            contains (str_lower rt s) (str_lower rt (get (md_from md) ""))
            = false).
Proof.
  unfold _check_exclusions.
  destruct (find (fun l => mem l (get (md_label_ids md) []))
                 (exclude_labels (config self))) as [l|] eqn:E1.
  { split; [discriminate|]. intros [H _]. exfalso.
    apply find_some in E1 as [Hin Hmem]. apply mem_In in Hmem.
    exact (H l Hin Hmem). }
  destruct (find (fun f => mem f (get (md_label_ids md) []))
                 (exclude_folders (config self))) as [f|] eqn:E2.
  { split; [discriminate|]. intros [_ [H _]]. exfalso.
    apply find_some in E2 as [Hin Hmem]. apply mem_In in Hmem.
    exact (H f Hin Hmem). }
  destruct (find (fun s => contains (str_lower rt s)
                                    (str_lower rt (get (md_from md) "")))
                 (exclude_senders (config self))) as [s|] eqn:E3.
  { split; [discriminate|]. intros [_ [_ H]]. exfalso.
    apply find_some in E3 as [Hin Hc]. rewrite (H s Hin) in Hc.
    discriminate. }
  split; [intros _ | reflexivity].
  rewrite find_none_iff in E1, E2, E3.
  split; [|split].
  - intros l Hl. apply mem_false. now apply E1.
  - intros f Hf. apply mem_false. now apply E2.
  - exact E3.
Qed.

Lemma _check_time_filters_passes md :
  _check_time_filters now_clock self md = Returned None
  <-> exists d,
        md_date md = Some d
        /\ (older_than_days (config self) <> 0%Z ->
            exists cutoff_date,
              minus_days (datetime_now now_clock (tzinfo d))
                         (older_than_days (config self))
              = Returned cutoff_date
              /\ dt_gt d cutoff_date = false)
        /\ (forall M, newer_than_days (config self) = Some M -> M <> 0%Z ->
            exists cutoff_date,
              minus_days (datetime_now now_clock (tzinfo d)) M
              = Returned cutoff_date
              /\ dt_lt d cutoff_date = false).
Proof.
  unfold _check_time_filters.
  destruct (md_date md) as [d|];
    [|split; [discriminate | intros [d [H _]]; discriminate]].
  cbv beta iota zeta. unfold truthy_int.
  destruct (newer_than_days (config self)) as [M|];
    [destruct (Z.eqb_spec M 0) as [HM|HM];
     [|destruct (minus_days (datetime_now now_clock (tzinfo d)) M)
         as [c'|e'] eqn:Hc'; [destruct (dt_lt d c') eqn:L|]]|];
    (destruct (Z.eqb_spec (older_than_days (config self)) 0) as [Hz|Hnz];
     [|destruct (minus_days (datetime_now now_clock (tzinfo d))
                            (older_than_days (config self)))
         as [c|e] eqn:Hc; [destruct (dt_gt d c) eqn:G|]]);
    cbn [negb]; cbv beta iota.
  all: split;
    [ intros H;
      first
        [ discriminate H
        | exists d; split; [reflexivity|]; split;
          [ intros Hnz'; first [contradiction | eauto]
          | intros M' HM' HM0;
            first [ discriminate HM'
                  | injection HM' as <-; first [contradiction | eauto] ] ] ]
    | intros [d' [Hd' [Ho Hn]]]; injection Hd' as <-;
      repeat match goal with
        | H : ?n <> 0%Z -> _, Hne : ?n <> 0%Z |- _ => specialize (H Hne)
        | H : forall M0, Some ?m = Some M0 -> _ |- _ =>
            specialize (H m eq_refl)
        | H : exists c0, _ |- _ => destruct H as [? [? ?]]
        end;
      first [reflexivity | congruence] ].
Qed.




Lemma accepted_iff_all_pass md :
  accepts (should_process_email rt now_clock self md) = true
  <-> _check_exclusions rt self md = None
      /\ _check_time_filters now_clock self md = Returned None
      /\ _check_size_filters rt self md = Returned None
      /\ _check_sender_filters rt self md = None
      /\ _check_content_filters self md = None.
Proof.
  rewrite should_process_email_first_rejection.
  destruct (_check_exclusions rt self md) as [r|] eqn:E1.
  { apply _check_exclusions_rejects in E1 as [H _]. cbn [accepts].
    rewrite H. split; [discriminate | intros [? _]; discriminate]. }
  destruct (_check_time_filters now_clock self md) as [[r|]|e] eqn:E2.
  { apply _check_time_filters_rejects in E2 as [H _]. cbn [accepts].
    rewrite H. split; [discriminate | intros [_ [? _]]; discriminate]. }
  2:{ cbn [accepts]. split; [discriminate | intros [_ [? _]]; discriminate]. }
  destruct (_check_size_filters rt self md) as [[r|]|e] eqn:E3.
  { apply _check_size_filters_rejects in E3 as [H _]. cbn [accepts].
    rewrite H. split; [discriminate | intros [_ [_ [? _]]]; discriminate]. }
  2:{ cbn [accepts].
      split; [discriminate | intros [_ [_ [? _]]]; discriminate]. }
  destruct (_check_sender_filters rt self md) as [r|] eqn:E4.
  { apply _check_sender_filters_rejects in E4 as [H _]. cbn [accepts].
    rewrite H. split; [discriminate | intros [_ [_ [_ [? _]]]]; discriminate]. }
  destruct (_check_content_filters self md) as [r|] eqn:E5.
  { apply _check_content_filters_rejects in E5 as [H _]. cbn [accepts].
    rewrite H. split; [discriminate | intros [_ [_ [_ [_ ?]]]]; discriminate]. }
  split; [intros _; repeat split | reflexivity].
Qed.

(** *** The acceptance criterion *)


(** *** The shape of an outcome *)




(** *** Excluded folders and senders *)

(** X7: an email in an excluded folder, or whose lower-cased sender
    contains a lower-cased excluded sender, is rejected by the exclusion
    filter with confidence 1.0, whatever its other fields and the other
    rules: the pipeline returns this decision and raises nothing. *)
Theorem excluded_folder_or_sender_rejects md :
  (exists f, In f (exclude_folders (config self))
        /\ In f (get (md_label_ids md) []))
  \/ (exists s, In s (exclude_senders (config self))
        /\ contains (str_lower rt s) (str_lower rt (get (md_from md) ""))
           = true) ->
  exists r,
    should_process_email rt now_clock self md = Returned r
    /\ should_process r = false
    /\ filter_type r = "exclusion"
    /\ confidence r = 1.0%float.
Proof.
  intros Hex. rewrite should_process_email_first_rejection.
  destruct (_check_exclusions rt self md) as [r|] eqn:E.
  - exists r. split; [reflexivity|]. now apply _check_exclusions_rejects in E.
  - exfalso. apply _check_exclusions_passes in E as [_ [Hf Hs]].
    destruct Hex as [[f [Hin Hl]]|[s [Hin Hc]]].
    + exact (Hf f Hin Hl).
    + rewrite (Hs s Hin) in Hc. discriminate.
Qed.

(** *** Bounds that leave no window *)

(** X8: when both day bounds are set and non-zero and [newer_than_days] is
    smaller than [older_than_days], no email at all is accepted: a dated
    email cannot be both at least [older_than_days] old and at most
    [newer_than_days] old, and an email without a date is rejected
    anyway. *)
Theorem empty_time_window md M :
  older_than_days (config self) <> 0%Z ->
  newer_than_days (config self) = Some M ->
  M <> 0%Z ->
  (M < older_than_days (config self))%Z ->
  accepts (should_process_email rt now_clock self md) = false.
Proof.
  intros Hold Hnew HM Hlt.
  destruct (accepts (should_process_email rt now_clock self md))
    eqn:E; [|reflexivity].
  exfalso. apply accepted_iff_all_pass in E as [_ [Htime _]].
  apply _check_time_filters_passes in Htime as [d [_ [Ho Hn]]].
  destruct (Ho Hold) as [c [Hc G]]. destruct (Hn M Hnew HM) as [c' [Hc' L]].
  apply minus_days_returns in Hc as [Hc _].
  apply minus_days_returns in Hc' as [Hc' _].
  unfold dt_gt in G. unfold dt_lt in L. rewrite Hc in G. rewrite Hc' in L.
  apply Z.ltb_ge in G, L.
  pose proof microseconds_per_day_pos. nia.
Qed.

End Stages.

(** *** Keyword thresholds of the categories *)

Lemma map_const_repeat {A B} (c : B) (l : list A) :
  map (fun _ => c) l = repeat c (length l).
Proof. induction l as [|a l IH]; [reflexivity|]. cbn. now rewrite IH. Qed.

Lemma filter_length_bound {A} (f : A -> bool) (l : list A) :
  (length (List.filter f l) <= length l)%nat.
Proof.
  induction l as [|a l IH]; [apply le_n|]. cbn.
  destruct (f a); cbn; lia.
Qed.

(** X9: an email is promotional exactly when its lower-cased subject
    contains at least three of the six promotional keywords, and a receipt
    exactly when it contains at least three of the six receipt keywords: two
    keywords give scores of exactly 0.4 and 0.6, which the strict thresholds
    do not pass. No email is ever categorized as social. *)
Theorem category_keyword_thresholds rt self md :
  is_promotional (categorize_email rt self md)
  = (3 <=? length
             (List.filter
                (fun keyword =>
                   contains keyword (str_lower rt (get (md_subject md) "")))
                ["sale"; "deal"; "offer"; "discount"; "limited time"; "%"]))%nat
  /\ is_receipt (categorize_email rt self md)
     = (3 <=? length
                (List.filter
                   (fun keyword =>
                      contains keyword
                               (str_lower rt (get (md_subject md) "")))
                   ["receipt"; "invoice"; "payment"; "order"; "purchase";
                    "transaction"]))%nat
  /\ is_social (categorize_email rt self md) = false.
Proof.
  unfold categorize_email. cbn [is_promotional is_receipt is_social].
  rewrite !map_const_repeat.
  split; [|split; [|reflexivity]].
  - pose proof (filter_length_bound
                  (fun keyword =>
                     contains keyword (str_lower rt (get (md_subject md) "")))
                  ["sale"; "deal"; "offer"; "discount"; "limited time"; "%"])
      as Hlen.
    cbn [length] in Hlen.
    destruct (length (List.filter _ _)) as [|[|[|[|[|[|[|n]]]]]]];
      try reflexivity. lia.
  - pose proof (filter_length_bound
                  (fun keyword =>
                     contains keyword (str_lower rt (get (md_subject md) "")))
                  ["receipt"; "invoice"; "payment"; "order"; "purchase";
                   "transaction"]) as Hlen.
    cbn [length] in Hlen.
    destruct (length (List.filter _ _)) as [|[|[|[|[|[|[|n]]]]]]];
      try reflexivity. lia.
Qed.

(** *** Clauses of the query *)





(** *** Concrete emails and configurations *)

Import Examples.


Lemma excluded_folder_or_sender_rejects_witness :
  In "école" (exclude_senders (config no_ecole_filter))
  /\ str_lower bare_address_runtime (get (md_from ecole_email) "")
     = "école@example.org"
  /\ contains (str_lower bare_address_runtime "école")
              (str_lower bare_address_runtime (get (md_from ecole_email) ""))
     = true
  /\ (exists r,
        should_process_email bare_address_runtime example_clock
          no_ecole_filter ecole_email = Returned r
        /\ should_process r = false
        /\ filter_type r = "exclusion"
        /\ confidence r = 1.0%float)
  /\ exists r,
       should_process_email bare_address_runtime example_clock no_boss_filter
         (meeting_email (Some (days_ago 400))) = Returned r
       /\ should_process r = false
       /\ filter_type r = "exclusion"
       /\ confidence r = 1.0%float.
Proof.
  split; [simpl; tauto|]. split; [reflexivity|]. split; [reflexivity|].
  split.
  - apply (excluded_folder_or_sender_rejects bare_address_runtime
             example_clock no_ecole_filter ecole_email).
    right. exists "école". split; [simpl; tauto | reflexivity].
  - apply (excluded_folder_or_sender_rejects bare_address_runtime
             example_clock no_boss_filter
             (meeting_email (Some (days_ago 400)))).
    right. exists "Boss@Company.com". split; [simpl; tauto | reflexivity].
Defined.

Lemma empty_time_window_witness :
  older_than_days (config narrow_filter) <> 0%Z
  /\ newer_than_days (config narrow_filter) = Some 30%Z
  /\ (30 < older_than_days (config narrow_filter))%Z
  /\ accepts
       (should_process_email bare_address_runtime example_clock narrow_filter
          (bare_email (Some (days_ago 100)))) = false.
Proof.
  split; [discriminate|]. split; [reflexivity|]. split; [reflexivity|].
  apply (empty_time_window bare_address_runtime example_clock narrow_filter
           (bare_email (Some (days_ago 100))) 30%Z).
  - discriminate.
  - reflexivity.
  - discriminate.
  - reflexivity.
Defined.


End FilterMore.

(** ** Searching *)

Module SearchProps.

Import GmailSearch.

Lemma truthy_int_pos n : (0 < n)%Z -> truthy_int n = true.
Proof. intros H. unfold truthy_int. destruct (Z.eqb_spec n 0); [lia | reflexivity]. Qed.

Lemma firstn_app_le {A} n (l1 l2 : list A) :
  (n <= length l1)%nat -> firstn n (l1 ++ l2)%list = firstn n l1.
Proof.
  intros H. rewrite firstn_app.
  replace (n - length l1)%nat with 0%nat by lia.
  cbn. apply app_nil_r.
Qed.

Section Search.

Context {message_ref : Type}.
Variable service : @list_service message_ref.

(** *** The cap *)

Lemma search_loop_cap fuel query n : forall acc token h ms h',
  (0 < n)%Z ->
  (Z.of_nat (length acc) < n)%Z ->
  search_loop service fuel query (Some n) acc token h
  = Some (Returned ms, h') ->
  (Z.of_nat (length ms) <= n)%Z.
Proof.
  induction fuel as [|fuel IH]; intros acc token h ms h' Hn Hacc;
    [discriminate|].
  cbn [search_loop]. rewrite (truthy_int_pos n Hn). cbn [andb].
  destruct (service h _) as [response|e]; [|discriminate].
  destruct (messages response) as [page|].
  - destruct (n <=? Z.of_nat (length (acc ++ page)%list))%Z eqn:C.
    + intros [= <- <-]. unfold slice_to.
      destruct (Z.leb_spec 0 n); [|lia].
      pose proof (firstn_le_length (Z.to_nat n) (acc ++ page)%list). lia.
    + apply Z.leb_gt in C.
      destruct (negb (truthy_opt truthy_str (nextPageToken response))).
      * intros [= <- <-]. lia.
      * intros Hrun. apply (IH _ _ _ _ _ Hn C Hrun).
  - destruct (negb (truthy_opt truthy_str (nextPageToken response))).
    + intros [= <- <-]. lia.
    + intros Hrun. apply (IH _ _ _ _ _ Hn Hacc Hrun).
Qed.

(** X11: with a positive [max_results], [search_messages] never returns
    more messages than [max_results], whatever the service sends and however
    large its pages are. *)
Theorem search_messages_cap fuel query n h ms h' :
  (0 < n)%Z ->
  search_messages service fuel query (Some n) h = Some (Returned ms, h') ->
  (Z.of_nat (length ms) <= n)%Z.
Proof.
  intros Hn. unfold search_messages.
  destruct (search_loop service fuel query (Some n) [] None h)
    as [[[ms0|e] h0]|] eqn:E; [| |discriminate].
  - intros [= <- <-].
    apply (search_loop_cap fuel query n [] None h ms0 h0 Hn); [cbn; lia|].
    exact E.
  - destruct e; discriminate.
Qed.

(** *** No limit *)

Lemma search_loop_zero fuel query : forall acc token h,
  search_loop service fuel query (Some 0%Z) acc token h
  = search_loop service fuel query None acc token h.
Proof.
  induction fuel as [|fuel IH]; intros acc token h; [reflexivity|].
  cbn [search_loop truthy_int Z.eqb negb andb].
  destruct (service h _) as [response|e]; [|reflexivity].
  destruct (messages response) as [page|];
    destruct (negb (truthy_opt truthy_str (nextPageToken response)));
    try reflexivity; apply IH.
Qed.

(** X12: [max_results = 0] does not mean "no message": it is read as no
    limit, and the search behaves exactly as without [max_results]. *)
Theorem search_messages_zero_is_unlimited fuel query h :
  search_messages service fuel query (Some 0%Z) h
  = search_messages service fuel query None h.
Proof. unfold search_messages. now rewrite search_loop_zero. Qed.

(** *** Paged results *)

Lemma search_loop_all_pages query pages : forall fuel acc token h,
  serves service query 500 h token pages ->
  (length pages <= fuel)%nat ->
  exists requests,
    search_loop service fuel query None acc token h
    = Some (Returned (acc ++ all_pages pages)%list, (h ++ requests)%list)
    /\ length requests = length pages
    /\ Forall (fun rq => q rq = query /\ maxResults rq = 500%Z) requests.
Proof.
  induction pages as [|page rest IH]; intros fuel acc token h Hs Hfuel;
    [contradiction|].
  destruct fuel as [|fuel]; [cbn in Hfuel; lia|].
  cbn [serves] in Hs. destruct Hs as [next [Hreply Hrest]].
  cbn [search_loop]. rewrite Hreply. cbn [messages nextPageToken].
  unfold all_pages. cbn [map concat]. fold (all_pages rest).
  destruct rest as [|page' rest'].
  - rewrite Hrest. cbn [negb].
    exists [mkListRequest query token 500].
    unfold all_pages. cbn [map concat]. rewrite app_nil_r.
    split; [destruct page; [reflexivity | now rewrite app_nil_r]|].
    split; [reflexivity|]. repeat constructor.
  - destruct Hrest as [Htok Hrest]. rewrite Htok. cbn [negb].
    cbn [length] in Hfuel.
    destruct page as [l|].
    + destruct (IH fuel (acc ++ l)%list next
                  (h ++ [mkListRequest query token 500])%list Hrest)
        as [requests [Hrun [Hlen Hall]]]; [cbn [length]; lia|].
      exists (mkListRequest query token 500 :: requests).
      rewrite Hrun, <- !app_assoc. cbn [app length].
      split; [reflexivity|]. split; [now rewrite Hlen|].
      constructor; [now split | assumption].
    + destruct (IH fuel acc next
                  (h ++ [mkListRequest query token 500])%list Hrest)
        as [requests [Hrun [Hlen Hall]]]; [cbn [length]; lia|].
      exists (mkListRequest query token 500 :: requests).
      rewrite Hrun, <- !app_assoc. cbn [app length].
      split; [reflexivity|]. split; [now rewrite Hlen|].
      constructor; [now split | assumption].
Qed.

(** X13: without [max_results], on a service that serves a result in
    pages, [search_messages] returns the messages of all pages in order, a
    page without a ['messages'] key counting as empty. It issues one request
    per page, each for the same query with page size 500, and stops at the
    first page that carries no next-page token; as many loop iterations as
    there are pages suffice. *)
Theorem search_messages_all_pages query pages fuel h :
  serves service query 500 h None pages ->
  (length pages <= fuel)%nat ->
  exists requests,
    search_messages service fuel query None h
    = Some (Returned (all_pages pages), (h ++ requests)%list)
    /\ length requests = length pages
    /\ Forall (fun rq => q rq = query /\ maxResults rq = 500%Z) requests.
Proof.
  intros Hs Hfuel.
  destruct (search_loop_all_pages query pages fuel [] None h Hs Hfuel)
    as [requests [Hrun H]].
  exists requests. unfold search_messages. rewrite Hrun. now split.
Qed.

Lemma search_loop_capped query n pages : forall fuel acc token h,
  (0 < n)%Z ->
  serves service query (Z.min 500 n) h token pages ->
  (length pages <= fuel)%nat ->
  (Z.of_nat (length acc) < n)%Z ->
  exists requests,
    search_loop service fuel query (Some n) acc token h
    = Some (Returned (firstn (Z.to_nat n) (acc ++ all_pages pages)%list),
            (h ++ requests)%list)
    /\ (1 <= length requests <= length pages)%nat.
Proof.
  induction pages as [|page rest IH]; intros fuel acc token h Hn Hs Hfuel Hacc;
    [contradiction|].
  destruct fuel as [|fuel]; [cbn in Hfuel; lia|].
  cbn [serves] in Hs. destruct Hs as [next [Hreply Hrest]].
  cbn [search_loop]. rewrite (truthy_int_pos n Hn), Hreply.
  cbn [messages nextPageToken andb].
  unfold all_pages. cbn [map concat]. fold (all_pages rest).
  cbn [length] in Hfuel.
  assert (Hnext : forall all_messages,
    (Z.of_nat (length all_messages) < n)%Z ->
    exists requests,
      (if negb (truthy_opt truthy_str next)
       then Some (Returned all_messages,
                  (h ++ [mkListRequest query token (Z.min 500 n)])%list)
       else search_loop service fuel query (Some n) all_messages next
              (h ++ [mkListRequest query token (Z.min 500 n)])%list)
      = Some (Returned (firstn (Z.to_nat n)
                          (all_messages ++ all_pages rest)%list),
              (h ++ requests)%list)
      /\ (1 <= length requests <= S (length rest))%nat).
  { intros all_messages Hall. destruct rest as [|page' rest'].
    - rewrite Hrest. cbn [negb].
      exists [mkListRequest query token (Z.min 500 n)].
      unfold all_pages. cbn [map concat length]. rewrite app_nil_r.
      rewrite firstn_all2 by lia. split; [reflexivity | lia].
    - destruct Hrest as [Htok Hrest]. rewrite Htok. cbn [negb].
      destruct (IH fuel all_messages next
                  (h ++ [mkListRequest query token (Z.min 500 n)])%list
                  Hn Hrest) as [requests [Hrun Hlen]];
        [cbn [length] in *; lia | assumption |].
      exists (mkListRequest query token (Z.min 500 n) :: requests).
      rewrite Hrun, <- !app_assoc. cbn [app length] in *.
      split; [reflexivity | lia]. }
  destruct page as [l|].
  - destruct (n <=? Z.of_nat (length (acc ++ l)%list))%Z eqn:C.
    + apply Z.leb_le in C.
      exists [mkListRequest query token (Z.min 500 n)].
      unfold slice_to. destruct (Z.leb_spec 0 n); [|lia].
      rewrite app_assoc.
      rewrite (firstn_app_le _ (acc ++ l)%list (all_pages rest)) by lia.
      split; [reflexivity | cbn [length]; lia].
    + apply Z.leb_gt in C. rewrite app_assoc. now apply Hnext.
  - cbn [app]. now apply Hnext.
Qed.

(** X14: with a positive [max_results], on a service that serves a result
    in pages, [search_messages] returns exactly the first [max_results]
    messages of the pages taken in order (all of them when there are fewer),
    asking for pages of [min(500, max_results)] messages and issuing no more
    requests than there are pages. *)
Theorem search_messages_capped query n pages fuel h :
  (0 < n)%Z ->
  serves service query (Z.min 500 n) h None pages ->
  (length pages <= fuel)%nat ->
  exists requests,
    search_messages service fuel query (Some n) h
    = Some (Returned (firstn (Z.to_nat n) (all_pages pages)),
            (h ++ requests)%list)
    /\ (1 <= length requests <= length pages)%nat.
Proof.
  intros Hn Hs Hfuel.
  destruct (search_loop_capped query n pages fuel [] None h Hn Hs Hfuel)
    as [requests [Hrun H]]; [cbn; lia|].
  exists requests. unfold search_messages. rewrite Hrun. now split.
Qed.

(** *** Failures *)

Lemma search_loop_more_fuel fuel query max_results : forall acc token h r,
  search_loop service fuel query max_results acc token h = Some r ->
  search_loop service (S fuel) query max_results acc token h = Some r.
Proof.
  induction fuel as [|fuel IH]; intros acc token h r; [discriminate|].
  intros H. cbn [search_loop] in H. cbn [search_loop].
  destruct (service h _) as [response|e]; [|exact H].
  destruct (messages response) as [page|].
  - destruct max_results as [n|].
    + destruct (truthy_int n && _); [exact H|].
      destruct (negb (truthy_opt truthy_str (nextPageToken response)));
        [exact H | now apply IH].
    + destruct (negb (truthy_opt truthy_str (nextPageToken response)));
        [exact H | now apply IH].
  - destruct (negb (truthy_opt truthy_str (nextPageToken response)));
      [exact H | now apply IH].
Qed.

Lemma search_loop_requests fuel query max_results : forall acc token h r h',
  search_loop service fuel query max_results acc token h = Some (r, h') ->
  exists earlier last,
    h' = (h ++ earlier ++ [last])%list
    /\ Forall (fun rq => q rq = query
                         /\ maxResults rq
                            = match max_results with
                              | Some n =>
                                  if truthy_int n then Z.min 500 n else 500%Z
                              | None => 500%Z
                              end) (earlier ++ [last])%list
    /\ (forall e, r = Raised e ->
          service (h ++ earlier)%list last = Raised e).
Proof.
  induction fuel as [|fuel IH]; intros acc token h r h'; [discriminate|].
  cbn [search_loop].
  set (size := match max_results with
               | Some n => if truthy_int n then Z.min 500 n else 500%Z
               | None => 500%Z
               end).
  set (rq := mkListRequest query token size).
  assert (Hone : forall r0 : outcome (list message_ref),
    (forall e, r0 = Raised e -> service h rq = Raised e) ->
    exists earlier last,
      (h ++ [rq])%list = (h ++ earlier ++ [last])%list
      /\ Forall (fun rq => q rq = query /\ maxResults rq = size)
                (earlier ++ [last])%list
      /\ (forall e, r0 = Raised e ->
            service (h ++ earlier)%list last = Raised e)).
  { intros r0 Hr0. exists [], rq. cbn [app]. rewrite app_nil_r.
    split; [reflexivity|]. split; [repeat constructor | exact Hr0]. }
  destruct (service h rq) as [response|e] eqn:Hreply.
  2:{ intros [= <- <-]. apply Hone. now intros e' [= <-]. }
  assert (Hnext : forall all_messages,
    (if negb (truthy_opt truthy_str (nextPageToken response))
     then Some (Returned all_messages, (h ++ [rq])%list)
     else search_loop service fuel query max_results all_messages
            (nextPageToken response) (h ++ [rq])%list) = Some (r, h') ->
    exists earlier last,
      h' = (h ++ earlier ++ [last])%list
      /\ Forall (fun rq => q rq = query /\ maxResults rq = size)
                (earlier ++ [last])%list
      /\ (forall e, r = Raised e ->
            service (h ++ earlier)%list last = Raised e)).
  { intros all_messages.
    destruct (negb (truthy_opt truthy_str (nextPageToken response))).
    - intros [= <- <-]. apply Hone. discriminate.
    - intros Hrun.
      destruct (IH _ _ _ _ _ Hrun) as [earlier [last [-> [Hall Hraise]]]].
      exists (rq :: earlier), last. rewrite <- !app_assoc. cbn [app].
      split; [reflexivity|].
      split; [constructor; [now split | assumption]|].
      intros e He. specialize (Hraise e He).
      now rewrite <- app_assoc in Hraise. }
  destruct (messages response) as [page|].
  - destruct max_results as [n|].
    + destruct (truthy_int n && _).
      * intros [= <- <-]. apply Hone. discriminate.
      * apply Hnext.
    + apply Hnext.
  - apply Hnext.
Qed.

(** X15: whenever [search_messages] ends, every request it issued carries
    the given query and the same page size, [min(500, max_results)] for a
    non-zero [max_results] and 500 otherwise, and at least one request was
    issued. If it raises, the exception is the one the service raised on the
    last request, an [HttpError] being turned into
    [GmailAPIError("Message search failed: ...")]: an [HttpError] never
    escapes, and the pages fetched before the failure are not returned. *)
Theorem search_messages_requests fuel query max_results h r h' :
  search_messages service fuel query max_results h = Some (r, h') ->
  exists earlier last,
    h' = (h ++ earlier ++ [last])%list
    /\ Forall (fun rq => q rq = query
                         /\ maxResults rq
                            = match max_results with
                              | Some n =>
                                  if truthy_int n then Z.min 500 n else 500%Z
                              | None => 500%Z
                              end) (earlier ++ [last])%list
    /\ (forall e, r = Raised e ->
          (forall t, e <> HttpError t)
          /\ exists e0,
               service (h ++ earlier)%list last = Raised e0
               /\ e = match e0 with
                      | HttpError t =>
                          GmailAPIError ("Message search failed: " ++ t)
                      | _ => e0
                      end).
Proof.
  unfold search_messages.
  destruct (search_loop service fuel query max_results [] None h)
    as [[r0 h0]|] eqn:E; [|destruct r; discriminate].
  destruct (search_loop_requests _ _ _ _ _ _ _ _ E)
    as [earlier [last [-> [Hall Hraise]]]].
  intros Hr. exists earlier, last.
  assert (Hh : h' = (h ++ earlier ++ [last])%list).
  { destruct r0 as [ms|[]]; now injection Hr as _ <-. }
  split; [exact Hh|]. split; [exact Hall|].
  intros e He. subst r.
  destruct r0 as [ms|e0]; [discriminate|].
  specialize (Hraise e0 eq_refl).
  destruct e0; injection Hr as <- _;
    (split; [discriminate | eexists; split; [exact Hraise | reflexivity]]).
Qed.

End Search.

(** *** Concrete searches *)

Lemma three_pages_serves size :
  serves three_pages "older_than:1y" size [] None
         [Some ["a"; "b"]; None; Some ["c"; "d"; "e"]].
Proof.
  cbn. eexists. split; [reflexivity|]. split; [reflexivity|].
  eexists. split; [reflexivity|]. split; [reflexivity|].
  eexists. split; reflexivity.
Qed.

Lemma search_messages_cap_witness :
  (0 < 3)%Z
  /\ search_messages three_pages 3 "older_than:1y" (Some 3%Z) []
     = Some (Returned ["a"; "b"; "c"],
             [mkListRequest "older_than:1y" None 3;
              mkListRequest "older_than:1y" (Some "t1") 3;
              mkListRequest "older_than:1y" (Some "t2") 3])
  /\ (Z.of_nat (length ["a"; "b"; "c"]) <= 3)%Z.
Proof.
  split; [reflexivity|]. split; [reflexivity|].
  apply (search_messages_cap three_pages 3 "older_than:1y" 3 []
           ["a"; "b"; "c"]
           [mkListRequest "older_than:1y" None 3;
            mkListRequest "older_than:1y" (Some "t1") 3;
            mkListRequest "older_than:1y" (Some "t2") 3]).
  - reflexivity.
  - reflexivity.
Defined.

Lemma search_messages_all_pages_witness :
  serves three_pages "older_than:1y" 500 [] None
         [Some ["a"; "b"]; None; Some ["c"; "d"; "e"]]
  /\ exists requests,
       search_messages three_pages 3 "older_than:1y" None []
       = Some (Returned (all_pages [Some ["a"; "b"]; None;
                                    Some ["c"; "d"; "e"]]),
               ([] ++ requests)%list)
       /\ length requests = 3%nat
       /\ Forall (fun rq => q rq = "older_than:1y"
                            /\ maxResults rq = 500%Z) requests.
Proof.
  split; [apply three_pages_serves|].
  apply (search_messages_all_pages three_pages "older_than:1y"
           [Some ["a"; "b"]; None; Some ["c"; "d"; "e"]] 3 []).
  - apply three_pages_serves.
  - apply le_n.
Defined.

Lemma search_messages_capped_witness :
  (0 < 3)%Z
  /\ serves three_pages "older_than:1y" (Z.min 500 3) [] None
            [Some ["a"; "b"]; None; Some ["c"; "d"; "e"]]
  /\ exists requests,
       search_messages three_pages 3 "older_than:1y" (Some 3%Z) []
       = Some (Returned (firstn (Z.to_nat 3)
                           (all_pages [Some ["a"; "b"]; None;
                                       Some ["c"; "d"; "e"]])),
               ([] ++ requests)%list)
       /\ (1 <= length requests <= 3)%nat.
Proof.
  split; [reflexivity|]. split; [apply three_pages_serves|].
  apply (search_messages_capped three_pages "older_than:1y" 3
           [Some ["a"; "b"]; None; Some ["c"; "d"; "e"]] 3 []).
  - reflexivity.
  - apply three_pages_serves.
  - apply le_n.
Defined.

Lemma search_messages_requests_witness :
  search_messages second_page_throttled 5 "older_than:1y" None []
  = Some (Raised (GmailAPIError
                    "Message search failed: 429 rateLimitExceeded"),
          [mkListRequest "older_than:1y" None 500;
           mkListRequest "older_than:1y" (Some "t1") 500])
  /\ exists earlier last,
       [mkListRequest "older_than:1y" None 500;
        mkListRequest "older_than:1y" (Some "t1") 500]
       = ([] ++ earlier ++ [last])%list
       /\ Forall (fun rq => q rq = "older_than:1y"
                            /\ maxResults rq = 500%Z)
                 (earlier ++ [last])%list
       /\ (forall e,
             Raised (GmailAPIError
                       "Message search failed: 429 rateLimitExceeded")
             = @Raised (list string) e ->
             (forall t, e <> HttpError t)
             /\ exists e0,
                  second_page_throttled ([] ++ earlier)%list last = Raised e0
                  /\ e = match e0 with
                         | HttpError t =>
                             GmailAPIError ("Message search failed: " ++ t)
                         | _ => e0
                         end).
Proof.
  split; [reflexivity|].
  apply (search_messages_requests second_page_throttled 5 "older_than:1y"
           None []).
  reflexivity.
Defined.

End SearchProps.


(** ** Extracting metadata *)

Module MetadataProps.

Import EmailFilter FilterProps MessageMetadata.

(** *** Attachments *)

Lemma count_step_nonneg (ps : list part) :
  Forall (fun p => (0 <= _count_attachments p)%Z) ps ->
  forall acc,
    (acc <= fold_left
              (fun count part =>
                 ((if is_attachment part then count + 1 else count)
                  + _count_attachments part)%Z) ps acc)%Z.
Proof.
  induction 1 as [|p ps Hp Hps IH]; intros acc; cbn [fold_left]; [lia|].
  specialize (IH ((if is_attachment p then acc + 1 else acc)
                  + _count_attachments p)%Z).
  destruct (is_attachment p); lia.
Qed.

Lemma _count_attachments_nonneg p : (0 <= _count_attachments p)%Z.
Proof.
  induction p as [hs fn aid ps IH] using part_induction.
  cbn [_count_attachments]. now apply count_step_nonneg.
Qed.

Lemma count_step_positive (ps : list part) :
  Forall (fun p => _has_attachments p = (0 <? _count_attachments p)%Z) ps ->
  forall acc, (0 <= acc)%Z ->
    (0 <? fold_left
            (fun count part =>
               ((if is_attachment part then count + 1 else count)
                + _count_attachments part)%Z) ps acc)%Z
    = (0 <? acc)%Z
      || existsb (fun part => is_attachment part || _has_attachments part) ps.
Proof.
  induction 1 as [|p ps Hp Hps IH]; intros acc Hacc; cbn [fold_left existsb].
  - now rewrite orb_false_r.
  - pose proof (_count_attachments_nonneg p) as Hnn.
    rewrite IH by (destruct (is_attachment p); lia).
    rewrite Hp.
    destruct (is_attachment p); cbn [orb];
      destruct (Z.ltb_spec 0 (_count_attachments p));
      destruct (Z.ltb_spec 0 acc);
      destruct (Z.ltb_spec 0 (acc + 1 + _count_attachments p));
      destruct (Z.ltb_spec 0 (acc + _count_attachments p));
      cbn [orb]; try reflexivity; try lia;
      destruct (existsb _ ps); reflexivity.
Qed.

(** X16: the two attachment fields agree on every payload, however deeply
    its parts are nested: [_has_attachments] is true exactly when
    [_count_attachments] is positive, and the count is never negative. *)
Theorem has_attachments_iff_count_positive payload :
  _has_attachments payload = (0 <? _count_attachments payload)%Z
  /\ (0 <= _count_attachments payload)%Z.
Proof.
  split; [|apply _count_attachments_nonneg].
  induction payload as [hs fn aid ps IH] using part_induction.
  cbn [_has_attachments _count_attachments].
  rewrite (count_step_positive ps IH 0%Z) by lia. reflexivity.
Qed.

(** *** Headers *)

Lemma dict_get_set d k v k' default :
  dict_get (dict_set d k v) k' default
  = if String.eqb k k' then v else dict_get d k' default.
Proof.
  induction d as [|[k0 v0] d IH]; cbn [dict_set dict_get].
  - reflexivity.
  - destruct (String.eqb_spec k0 k) as [->|Hne]; cbn [dict_get].
    + destruct (String.eqb_spec k k'); reflexivity.
    + rewrite IH. destruct (String.eqb_spec k0 k') as [->|Hne'];
        [|reflexivity].
      destruct (String.eqb_spec k k'); [congruence | reflexivity].
Qed.

Lemma find_append {A} (f : A -> bool) (l1 l2 : list A) :
  find f (l1 ++ l2)%list
  = match find f l1 with Some x => Some x | None => find f l2 end.
Proof.
  induction l1 as [|a l1 IH]; [reflexivity|]. cbn.
  destruct (f a); [reflexivity | exact IH].
Qed.

Lemma headers_dict_get (rt : runtime) (hs : list (string * string)) k default :
  forall d,
  dict_get
    (fold_left
       (fun headers header =>
          dict_set headers (str_lower rt (fst header)) (snd header)) hs d)
    k default
  = match find (fun header => String.eqb (str_lower rt (fst header)) k)
               (rev hs) with
    | Some header => snd header
    | None => dict_get d k default
    end.
Proof.
  induction hs as [|h hs IH]; intros d; cbn [fold_left rev]; [reflexivity|].
  rewrite IH, find_append.
  destruct (find _ (rev hs)); [reflexivity|].
  cbn [find]. rewrite dict_get_set.
  destruct (String.eqb (str_lower rt (fst h)) k); reflexivity.
Qed.

Section Extract.

Variable rt : runtime.
Variable parsedate_to_datetime : string -> outcome datetime.

(** X17: each header field of the extracted metadata is the value of the
    last header of that name in the payload, the names compared after
    lower-casing, and the empty string when the payload has no such header
    (or when the message has no payload). *)
Theorem extracted_headers_last_wins message :
  let headers :=
    part_headers (get (msg_payload message) (mkPart [] None None [])) in
  let m := extract_message_metadata rt parsedate_to_datetime message in
  subject m = last_header rt "subject" headers
  /\ from m = last_header rt "from" headers
  /\ to m = last_header rt "to" headers
  /\ date_str m = last_header rt "date" headers
  /\ message_id_header m = last_header rt "message-id" headers.
Proof.
  intros headers m. unfold m, extract_message_metadata, last_header.
  cbn [subject from to date_str message_id_header]. fold headers.
  rewrite !headers_dict_get. cbn [dict_get]. repeat split.
Qed.

(** *** Extracted metadata in the filter *)

(** X18: a message without a Date header, with an empty one, or with one
    that [parsedate_to_datetime] rejects, is extracted with [date = None];
    the filter then returns a rejection for it and never accepts it,
    whatever the configuration. *)
Theorem undated_message_never_accepted now_clock self message :
  let headers :=
    part_headers (get (msg_payload message) (mkPart [] None None [])) in
  last_header rt "date" headers = ""
  \/ (exists e, parsedate_to_datetime (last_header rt "date" headers)
                = Raised e) ->
  date (extract_message_metadata rt parsedate_to_datetime message) = None
  /\ exists r,
       should_process_email rt now_clock self
         (as_email_metadata
            (extract_message_metadata rt parsedate_to_datetime message))
       = Returned r
       /\ should_process r = false.
Proof.
  intros headers Hdate.
  destruct (extracted_headers_last_wins message) as [_ [_ [_ [Hstr _]]]].
  fold headers in Hstr.
  assert (Hnone :
    date (extract_message_metadata rt parsedate_to_datetime message) = None).
  { unfold extract_message_metadata in *. cbn [date date_str] in *.
    rewrite Hstr.
    destruct Hdate as [->|[e ->]]; [reflexivity|].
    now destruct (GmailSearch.truthy_str _). }
  split; [exact Hnone|].
  rewrite should_process_email_first_rejection.
  destruct (_check_exclusions rt self _) as [r|] eqn:E.
  - exists r. split; [reflexivity|]. now apply _check_exclusions_rejects in E.
  - unfold _check_time_filters. cbn [as_email_metadata md_date].
    rewrite Hnone. eexists. split; reflexivity.
Qed.

End Extract.

Lemma undated_message_never_accepted_witness :
  last_header bare_address_runtime "date"
    (part_headers (get (msg_payload example_message)
                       (mkPart [] None None []))) = ""
  /\ subject (extract_message_metadata bare_address_runtime no_dates
                example_message) = "second"
  /\ attachment_count (extract_message_metadata bare_address_runtime no_dates
                         example_message) = 2%Z
  /\ date (extract_message_metadata bare_address_runtime no_dates
             example_message) = None
  /\ exists r,
       should_process_email bare_address_runtime example_clock default_filter
         (as_email_metadata
            (extract_message_metadata bare_address_runtime no_dates
               example_message))
       = Returned r
       /\ should_process r = false.
Proof.
  do 3 (split; [reflexivity|]).
  apply (undated_message_never_accepted bare_address_runtime no_dates
           example_clock default_filter example_message).
  left. reflexivity.
Defined.

End MetadataProps.

(** ** Statistics *)

Module StatsProps.

Import EmailFilter FilterStats.

Lemma count_if_cons {A} (f : A -> bool) a l :
  count_if f (a :: l) = ((if f a then 1 else 0) + count_if f l)%Z.
Proof. unfold count_if. cbn. destruct (f a); cbn [length]; lia. Qed.

Lemma counter_get_set d k v k' default :
  counter_get (counter_set d k v) k' default
  = if String.eqb k k' then v else counter_get d k' default.
Proof.
  induction d as [|[k0 v0] d IH]; cbn [counter_set counter_get].
  - reflexivity.
  - destruct (String.eqb_spec k0 k) as [->|Hne]; cbn [counter_get].
    + destruct (String.eqb_spec k k'); reflexivity.
    + rewrite IH. destruct (String.eqb_spec k0 k') as [->|Hne'];
        [|reflexivity].
      destruct (String.eqb_spec k k'); [congruence | reflexivity].
Qed.

Lemma counter_total_incr d k :
  counter_total (counter_set d k (counter_get d k 0 + 1))
  = (counter_total d + 1)%Z.
Proof.
  unfold counter_total.
  induction d as [|[k0 v0] d IH]; cbn [counter_set counter_get fold_right].
  - cbn. lia.
  - destruct (String.eqb k0 k); cbn [fold_right snd]; [lia|].
    rewrite IH. lia.
Qed.

(** A quotient of an int by a larger positive int is a float. *)
Lemma int_truediv_fraction a b :
  (0 <= a <= b)%Z -> (0 < b)%Z -> exists x, int_truediv a b = Returned x.
Proof.
  intros Ha Hb. unfold int_truediv.
  destruct (Z.eqb_spec b 0); [lia|].
  assert (Hbound : (2 <= float_overflow_bound)%Z) by (vm_compute; discriminate).
  destruct (Z.leb_spec (float_overflow_bound * Z.abs b) (Z.abs a));
    [nia | eauto].
Qed.

Lemma int_truediv_mb size :
  (exists x, int_truediv size (1024 * 1024) = Returned x)
  <-> (Z.abs size < float_overflow_bound * 2 ^ 20)%Z.
Proof.
  unfold int_truediv. change (1024 * 1024 =? 0)%Z with false.
  change (Z.abs (1024 * 1024)) with (2 ^ 20)%Z.
  destruct (Z.leb_spec (float_overflow_bound * 2 ^ 20) (Z.abs size)).
  - split; [intros [x Hx]; discriminate | lia].
  - split; [intros _; assumption | eauto].
Qed.

Section Stats.

Variable rt : runtime.
Variable filter_clock : nat -> clock.
Variable age_clock : nat -> clock.
Variable self : EmailFilter.

(** What handling one email adds to the statistics. *)
Lemma count_email_spec i md stats stats' :
  count_email rt filter_clock age_clock self i md stats = Returned stats' ->
  exists r,
  should_process_email rt (filter_clock i) self md = Returned r
  /\ total_emails stats' = total_emails stats
  /\ would_process stats'
     = (would_process stats + (if should_process r then 1 else 0))%Z
  /\ (forall t, counter_get (excluded_by_filter stats') t 0
                = (counter_get (excluded_by_filter stats) t 0
                   + (if negb (should_process r)
                         && String.eqb (filter_type r) t then 1 else 0))%Z)
  /\ counter_total (excluded_by_filter stats')
     = (counter_total (excluded_by_filter stats)
        + (if should_process r then 0 else 1))%Z
  /\ (small (size_distribution stats') + medium (size_distribution stats')
      + large (size_distribution stats')
      = small (size_distribution stats) + medium (size_distribution stats)
        + large (size_distribution stats) + 1)%Z
  /\ (recent (age_distribution stats') + medium_age (age_distribution stats')
      + old (age_distribution stats')
      = recent (age_distribution stats) + medium_age (age_distribution stats)
        + old (age_distribution stats)
        + match md_date md with Some _ => 1 | None => 0 end)%Z
  /\ social (categories stats') = social (categories stats)
  /\ promotional (categories stats')
     = (promotional (categories stats)
        + (if is_promotional (categorize_email rt self md) then 1 else 0))%Z.
Proof.
  intros Hrun. unfold count_email in Hrun.
  destruct (should_process_email rt (filter_clock i) self md) as [r|e];
    [|discriminate].
  exists r. split; [reflexivity|].
  destruct (int_truediv _ _) as [size_mb|e]; [|discriminate].
  remember (categorize_email rt self md) as cats eqn:Hcats.
  assert (Hsocial : is_social cats = false) by (now subst cats).
  clear Hcats.
  destruct (md_date md) as [d|]; [destruct (tzinfo d); [discriminate|]|];
    injection Hrun as <-;
    cbn [total_emails would_process excluded_by_filter categories
         size_distribution age_distribution social promotional];
    (split; [reflexivity|]);
    (split; [destruct (should_process r); lia|]);
    (split;
     [intros t; destruct (should_process r); cbn [negb andb];
      [lia | rewrite counter_get_set;
             destruct (String.eqb_spec (filter_type r) t) as [<-|]; lia]|]);
    (split;
     [destruct (should_process r); [lia | apply counter_total_incr]|]);
    (split;
     [destruct (_ <? 1)%float; [cbn; lia|];
      destruct (_ <? 10)%float; cbn; lia|]);
    (split;
     [try (destruct (_ <? 30)%Z; [cbn; lia|];
           destruct (_ <? 365)%Z; cbn; lia); lia|]);
    (split; [now rewrite Hsocial|]);
    destruct (is_promotional cats); lia.
Qed.


(** What handling a list of emails adds to the statistics. *)
Lemma count_emails_spec emails : forall i stats stats',
  count_emails rt filter_clock age_clock self i emails stats
  = Returned stats' ->
  Forall (fun o => GmailClient.returned o = true)
         (decisions rt filter_clock self i emails)
  /\ total_emails stats' = total_emails stats
  /\ would_process stats'
     = (would_process stats
        + count_if accepts (decisions rt filter_clock self i emails))%Z
  /\ (forall t, counter_get (excluded_by_filter stats') t 0
                = (counter_get (excluded_by_filter stats) t 0
                   + count_if (rejected_by t)
                       (decisions rt filter_clock self i emails))%Z)
  /\ counter_total (excluded_by_filter stats')
     = (counter_total (excluded_by_filter stats)
        + count_if (fun o => negb (accepts o))
            (decisions rt filter_clock self i emails))%Z
  /\ (small (size_distribution stats') + medium (size_distribution stats')
      + large (size_distribution stats')
      = small (size_distribution stats) + medium (size_distribution stats)
        + large (size_distribution stats) + Z.of_nat (length emails))%Z
  /\ (recent (age_distribution stats') + medium_age (age_distribution stats')
      + old (age_distribution stats')
      = recent (age_distribution stats) + medium_age (age_distribution stats)
        + old (age_distribution stats)
        + count_if (fun md => match md_date md with
                              | Some _ => true
                              | None => false
                              end) emails)%Z
  /\ social (categories stats') = social (categories stats)
  /\ promotional (categories stats')
     = (promotional (categories stats)
        + count_if (fun md => is_promotional (categorize_email rt self md))
            emails)%Z.
Proof.
  induction emails as [|md emails IH]; intros i stats stats'.
  - cbn [count_emails decisions]. intros [= <-]. unfold count_if. cbn.
    split; [constructor|]. repeat split; try lia.
  - cbn [count_emails decisions].
    destruct (count_email rt filter_clock age_clock self i md stats)
      as [stats1|e] eqn:E1; [|discriminate].
    intros Hrest.
    destruct (count_email_spec i md stats stats1 E1)
      as [r [Hr [A1 [A2 [A3 [A4 [A5 [A6 [A7 A8]]]]]]]]].
    destruct (IH (S i) stats1 stats' Hrest)
      as [B0 [B1 [B2 [B3 [B4 [B5 [B6 [B7 B8]]]]]]]].
    rewrite Hr. cbn [length].
    split; [constructor; [reflexivity | assumption]|].
    split; [congruence|].
    split; [rewrite count_if_cons; cbn [accepts]; lia|].
    split; [intros t; rewrite count_if_cons, B3, A3; cbn [rejected_by]; lia|].
    split; [rewrite count_if_cons, B4, A4; cbn [accepts];
            destruct (should_process r); cbn [negb]; lia|].
    split; [lia|].
    split; [rewrite count_if_cons, B6, A6; destruct (md_date md); lia|].
    split; [congruence | rewrite count_if_cons; lia].
Qed.



Lemma decisions_length emails : forall i,
  length (decisions rt filter_clock self i emails) = length emails.
Proof.
  induction emails as [|md emails IH]; intros i; [reflexivity|].
  cbn [decisions length]. now rewrite IH.
Qed.

Lemma count_if_bounds {A} (f : A -> bool) (l : list A) :
  (0 <= count_if f l <= Z.of_nat (length l))%Z.
Proof.
  unfold count_if. induction l as [|a l IH]; cbn [List.filter length]; [lia|].
  destruct (f a); cbn [length]; lia.
Qed.

(** The statistics of [get_filter_stats] are those of the loop, with the
    percentage; computing the percentage does not raise. *)
Lemma get_filter_stats_run emails :
  match count_emails rt filter_clock age_clock self 0 emails
          {| total_emails := Z.of_nat (length emails);
             would_process := 0;
             excluded_by_filter := [];
             categories := mkCategoryCounts 0 0 0 0 0;
             size_distribution := mkSizeDistribution 0 0 0;
             age_distribution := mkAgeDistribution 0 0 0;
             process_percentage := NInt 0 |} with
  | Raised e =>
      get_filter_stats rt filter_clock age_clock self emails = Raised e
  | Returned s =>
      exists percentage,
        get_filter_stats rt filter_clock age_clock self emails
        = Returned
            {| total_emails := total_emails s;
               would_process := would_process s;
               excluded_by_filter := excluded_by_filter s;
               categories := categories s;
               size_distribution := size_distribution s;
               age_distribution := age_distribution s;
               process_percentage := percentage |}
  end.
Proof.
  unfold get_filter_stats.
  destruct (count_emails rt filter_clock age_clock self 0 emails _)
    as [s|e] eqn:E; [|reflexivity].
  destruct (count_emails_spec emails 0 _ s E) as [_ [B1 [B2 _]]].
  cbn [total_emails would_process] in B1, B2.
  destruct (Z.ltb_spec 0 (total_emails s)); [|eauto].
  destruct (int_truediv_fraction (would_process s) (total_emails s))
    as [x Hx].
  - pose proof (count_if_bounds accepts
                  (decisions rt filter_clock self 0 emails)) as Hb.
    rewrite decisions_length in Hb. lia.
  - assumption.
  - rewrite Hx. eauto.
Qed.

(** X19: when [get_filter_stats] returns, its counts add up. The total is
    the number of emails; [would_process] is the number of emails the
    pipeline accepts; [excluded_by_filter] holds, for each filter type, the
    number of emails rejected by that filter, and no other count; so
    [would_process] and the counts of [excluded_by_filter] sum to the
    total. *)
Theorem get_filter_stats_accounting emails stats :
  get_filter_stats rt filter_clock age_clock self emails = Returned stats ->
  total_emails stats = Z.of_nat (length emails)
  /\ would_process stats
     = count_if accepts (decisions rt filter_clock self 0 emails)
  /\ (forall t, counter_get (excluded_by_filter stats) t 0
                = count_if (rejected_by t)
                    (decisions rt filter_clock self 0 emails))
  /\ (would_process stats + counter_total (excluded_by_filter stats))%Z
     = total_emails stats.
Proof.
  pose proof (get_filter_stats_run emails) as Hrun.
  destruct (count_emails rt filter_clock age_clock self 0 emails _)
    as [s|e] eqn:E; [|rewrite Hrun; discriminate].
  destruct Hrun as [percentage ->]. intros [= <-].
  cbn [total_emails would_process excluded_by_filter].
  destruct (count_emails_spec emails 0 _ s E)
    as [B0 [B1 [B2 [B3 [B4 _]]]]].
  cbn [total_emails would_process excluded_by_filter counter_get
       counter_total fold_right] in *.
  split; [assumption|]. split; [lia|]. split; [intros t; rewrite B3; lia|].
  rewrite B1, B2, B4.
  assert (Hlen : forall l : list (outcome FilterResult),
            (count_if accepts l + count_if (fun o => negb (accepts o)) l)%Z
            = Z.of_nat (length l)).
  { induction l as [|a l IHl]; [reflexivity|].
    rewrite !count_if_cons. cbn [length].
    destruct (accepts a); cbn [negb]; lia. }
  rewrite <- (decisions_length emails 0%nat). rewrite <- Hlen. lia.
Qed.

(** X20: when [get_filter_stats] returns, the three size buckets sum to the
    number of emails, the three age buckets sum to the number of emails that
    have a date, the promotional count is the number of emails categorized
    as promotional, and the social count is 0. *)
Theorem get_filter_stats_distributions emails stats :
  get_filter_stats rt filter_clock age_clock self emails = Returned stats ->
  (small (size_distribution stats) + medium (size_distribution stats)
   + large (size_distribution stats))%Z = Z.of_nat (length emails)
  /\ (recent (age_distribution stats) + medium_age (age_distribution stats)
      + old (age_distribution stats))%Z
     = count_if (fun md => match md_date md with
                           | Some _ => true
                           | None => false
                           end) emails
  /\ promotional (categories stats)
     = count_if (fun md => is_promotional (categorize_email rt self md)) emails
  /\ social (categories stats) = 0%Z.
Proof.
  pose proof (get_filter_stats_run emails) as Hrun.
  destruct (count_emails rt filter_clock age_clock self 0 emails _)
    as [s|e] eqn:E; [|rewrite Hrun; discriminate].
  destruct Hrun as [percentage ->]. intros [= <-].
  cbn [size_distribution age_distribution categories].
  destruct (count_emails_spec emails 0 _ s E)
    as [_ [_ [_ [_ [_ [B5 [B6 [B7 B8]]]]]]]].
  cbn in B5, B6, B7, B8. repeat split; try assumption; lia.
Qed.


End Stats.

(** *** Concrete statistics *)

Lemma example_stats :
  get_filter_stats bare_address_runtime (fun _ => example_clock)
    (fun _ => example_clock) default_filter
    [offer_email; meeting_email (Some (days_ago 10)); bare_email None]
  = Returned
      {| total_emails := 3;
         would_process := 1;
         excluded_by_filter := [("exclusion", 1%Z); ("time", 1%Z)];
         categories := mkCategoryCounts 0 0 0 0 0;
         size_distribution := mkSizeDistribution 3 0 0;
         age_distribution := mkAgeDistribution 1 0 1;
         process_percentage := NFloat (round_quotient 1 3 * 100)%float |}.
Proof. vm_compute. reflexivity. Qed.

Lemma get_filter_stats_accounting_witness :
  exists stats,
    get_filter_stats bare_address_runtime (fun _ => example_clock)
      (fun _ => example_clock) default_filter
      [offer_email; meeting_email (Some (days_ago 10)); bare_email None]
    = Returned stats
    /\ total_emails stats = 3%Z
    /\ would_process stats = 1%Z
    /\ counter_get (excluded_by_filter stats) "exclusion" 0 = 1%Z
    /\ counter_get (excluded_by_filter stats) "time" 0 = 1%Z
    /\ (would_process stats + counter_total (excluded_by_filter stats))%Z
       = total_emails stats.
Proof.
  eexists. split; [exact example_stats|].
  do 4 (split; [reflexivity|]).
  eapply (get_filter_stats_accounting bare_address_runtime
            (fun _ => example_clock) (fun _ => example_clock) default_filter
            [offer_email; meeting_email (Some (days_ago 10));
             bare_email None]).
  exact example_stats.
Defined.

Lemma get_filter_stats_distributions_witness :
  exists stats,
    get_filter_stats bare_address_runtime (fun _ => example_clock)
      (fun _ => example_clock) default_filter
      [offer_email; meeting_email (Some (days_ago 10)); bare_email None]
    = Returned stats
    /\ age_distribution stats = mkAgeDistribution 1 0 1
    /\ (small (size_distribution stats) + medium (size_distribution stats)
        + large (size_distribution stats))%Z = 3%Z
    /\ social (categories stats) = 0%Z.
Proof.
  eexists. split; [exact example_stats|]. split; [reflexivity|].
  destruct (get_filter_stats_distributions bare_address_runtime
              (fun _ => example_clock) (fun _ => example_clock) default_filter
              [offer_email; meeting_email (Some (days_ago 10));
               bare_email None] _ example_stats) as [Hsizes [_ [_ Hsocial]]].
  split; [exact Hsizes | exact Hsocial].
Defined.




End StatsProps.
